(** * The TF1-to-Keras BERT checkpoint converter

    A shallow embedding of
    [official/nlp/bert/tf1_to_keras_checkpoint_converter.py]: the two
    rename tables, the name rewriter [_bert_name_replacement], the
    exclusion test [_has_exclude_patterns], the shape rule
    [_get_new_shape], the loop of [convert_names] and the flag handling
    of [main], followed by the properties the specification states about
    them. *)

From Stdlib Require Import ZArith NArith Ascii.
From stdpp Require Import base option list strings gmap fin_maps.

Local Open Scope Z_scope.

(** ** Exceptions *)

Inductive exn : Set :=
| IndexError          (* tuple index out of range *)
| ZeroDivisionError   (* [//] by zero *)
| ValueError          (* [np.reshape] to a shape of another size, empty separator *)
| NotFoundError.      (* [reader.get_tensor] of an unknown name *)

Inductive res (A : Type) : Type :=
| Ret (a : A)
| Raise (e : exn).
Arguments Ret {A} a.
Arguments Raise {A} e.

Global Instance res_ret : MRet res := @Ret.
Global Instance res_bind : MBind res := λ A B f m,
  match m with
  | Ret a => f a
  | Raise e => Raise e
  end.

(** ** Python string primitives

    Variable names are strings of 8-bit characters (TensorFlow variable
    names are ASCII).  Only the three [str] operations the converter
    uses are modelled: [p in s], [s.replace(old, new)] and
    [s.split(sep)]. *)

Module PyStr.

(** [s.startswith(p)]. *)
Fixpoint startswith (s p : string) : bool :=
  match p, s with
  | EmptyString, _ => true
  | String _ _, EmptyString => false
  | String a p', String b s' => if Ascii.eqb a b then startswith s' p' else false
  end.

(** [p in s]: [p] occurs at some offset of [s]; the empty pattern
    occurs in every string, the empty one included. *)
Fixpoint contains (s p : string) : bool :=
  startswith s p ||
  match s with
  | EmptyString => false
  | String _ s' => contains s' p
  end.

(** The scan of [s.replace(old, new)] for a non-empty [old]: left to
    right, each match emits [new] and the scan resumes right after the
    matched text, so matches never overlap.  [skip] counts the
    characters of the current match that are still to be dropped. *)
Fixpoint replace_from (old new s : string) (skip : nat) : string :=
  match s with
  | EmptyString => EmptyString
  | String c s' =>
      match skip with
      | S k => replace_from old new s' k
      | O =>
          if startswith s old
          then new +:+ replace_from old new s' (String.length old - 1)
          else String c (replace_from old new s' 0)
      end
  end.

(** With an empty [old] Python puts [new] before every character and
    at the end. *)
Fixpoint intersperse (new s : string) : string :=
  match s with
  | EmptyString => new
  | String c s' => new +:+ String c (intersperse new s')
  end.

Definition replace (s old new : string) : string :=
  match old with
  | EmptyString => intersperse new s
  | String _ _ => replace_from old new s 0
  end.

(** The scan of [s.split(sep)] for a non-empty [sep]; the result always
    has at least one field. *)
Fixpoint split_from (sep s : string) (skip : nat) : list string :=
  match s with
  | EmptyString => [EmptyString]
  | String c s' =>
      match skip with
      | S k => split_from sep s' k
      | O =>
          if startswith s sep
          then EmptyString :: split_from sep s' (String.length sep - 1)
          else match split_from sep s' 0 with
               | w :: ws => String c w :: ws
               | [] => [String c EmptyString]
               end
      end
  end.

(** [s.split(sep)]; Python raises [ValueError] on an empty separator. *)
Definition split (s sep : string) : res (list string) :=
  match sep with
  | EmptyString => Raise ValueError
  | String _ _ => Ret (split_from sep s 0)
  end.

End PyStr.

(** ** Flags *)

Record Flags : Type := {
  exclude_patterns_flag : option string;   (* --exclude_patterns, default None *)
  num_heads : Z;                           (* --num_heads, default -1 *)
  use_v2_names : bool                      (* --use_v2_names, default False *)
}.

(** ** The rename tables *)

Definition BERT_NAME_REPLACEMENTS : list (string * string) :=
  [ ("bert", "bert_model");
    ("embeddings/word_embeddings", "word_embeddings/embeddings");
    ("embeddings/token_type_embeddings", "embedding_postprocessor/type_embeddings");
    ("embeddings/position_embeddings", "embedding_postprocessor/position_embeddings");
    ("embeddings/LayerNorm", "embedding_postprocessor/layer_norm");
    ("attention/self", "self_attention");
    ("attention/output/dense", "self_attention_output");
    ("attention/output/LayerNorm", "self_attention_layer_norm");
    ("intermediate/dense", "intermediate");
    ("output/dense", "output");
    ("output/LayerNorm", "output_layer_norm");
    ("pooler/dense", "pooler_transform") ].

Definition BERT_V2_NAME_REPLACEMENTS : list (string * string) :=
  [ ("bert/", "");
    ("encoder", "transformer");
    ("embeddings/word_embeddings", "word_embeddings/embeddings");
    ("embeddings/token_type_embeddings", "type_embeddings/embeddings");
    ("embeddings/position_embeddings", "position_embedding/embeddings");
    ("embeddings/LayerNorm", "embeddings/layer_norm");
    ("attention/self", "self_attention");
    ("attention/output/dense", "self_attention_output");
    ("attention/output/LayerNorm", "self_attention_layer_norm");
    ("intermediate/dense", "intermediate");
    ("output/dense", "output");
    ("output/LayerNorm", "output_layer_norm");
    ("pooler/dense", "pooler_transform") ].

(** ** The name rewriter *)

(** One turn of the [for src_pattern, tgt_pattern in name_replacements]
    loop (the log line is not modelled). *)
Definition replacement_step (var_name : string) (rule : string * string) : string :=
  let '(src_pattern, tgt_pattern) := rule in
  if PyStr.contains var_name src_pattern
  then PyStr.replace var_name src_pattern tgt_pattern
  else var_name.

(** The loop itself, over any table. *)
Definition apply_replacements (name_replacements : list (string * string))
    (var_name : string) : string :=
  fold_left replacement_step name_replacements var_name.

Definition _bert_name_replacement (FLAGS : Flags) (var_name : string) : string :=
  let name_replacements :=
    if use_v2_names FLAGS then BERT_V2_NAME_REPLACEMENTS else BERT_NAME_REPLACEMENTS in
  apply_replacements name_replacements var_name.

(** ** The exclusion test *)

Fixpoint _has_exclude_patterns (name : string) (exclude_patterns : list string) : bool :=
  match exclude_patterns with
  | [] => false
  | p :: rest => if PyStr.contains name p then true else _has_exclude_patterns name rest
  end.

(** ** The shape rule *)

(** [shape[i]] on a tuple, for the indices 0 and 1 the code uses. *)
Definition tuple_get (shape : list Z) (i : nat) : res Z :=
  match shape !! i with
  | Some d => Ret d
  | None => Raise IndexError
  end.

(** [a // b] on Python integers: floor division, as [Z.div] is. *)
Definition floordiv (a b : Z) : res Z :=
  if b =? 0 then Raise ZeroDivisionError else Ret (a / b).

Definition qkv_patterns : list string :=
  [ "attention/self/query"; "attention/self/value"; "attention/self/key" ].

(** The [for pattern in patterns] loop of [_get_new_shape]; [None] is
    Python's [None]. *)
Fixpoint qkv_loop (patterns : list string) (name : string) (shape : list Z)
    (num_heads : Z) : res (option (list Z)) :=
  match patterns with
  | [] => Ret None
  | pattern :: rest =>
      if PyStr.contains name pattern then
        if PyStr.contains name "kernel" then
          d0 ← tuple_get shape 0;
          d1 ← tuple_get shape 1;
          q ← floordiv d1 num_heads;
          Ret (Some [d0; num_heads; q])
        else if PyStr.contains name "bias" then
          d0 ← tuple_get shape 0;
          q ← floordiv d0 num_heads;
          Ret (Some [num_heads; q])
        else qkv_loop rest name shape num_heads
      else qkv_loop rest name shape num_heads
  end.

Definition _get_new_shape (name : string) (shape : list Z) (num_heads : Z)
    : res (option (list Z)) :=
  if PyStr.contains name "attention/output/dense/kernel" then
    d0 ← tuple_get shape 0;
    q ← floordiv d0 num_heads;
    d1 ← tuple_get shape 1;
    Ret (Some [num_heads; q; d1])
  else if PyStr.contains name "attention/output/dense/bias" then
    Ret (Some shape)
  else qkv_loop qkv_patterns name shape num_heads.


(** ** Tensors, variables and the checkpoint reader *)

(** A numpy array as far as the converter looks at it: its shape (numpy
    dimensions are never negative) and its flat row-major buffer, whose
    elements stay opaque words. *)
Record Tensor : Type := {
  shape : list N;
  buffer : list Z
}.

Definition product (dims : list Z) : Z := foldr Z.mul 1 dims.

(** [tensor.shape] as the tuple of Python integers the shape rule reads. *)
Definition shape_tuple (tensor : Tensor) : list Z := Z.of_N <$> shape tensor.

(** [tensor.size]. *)
Definition size (tensor : Tensor) : Z := product (shape_tuple tensor).

(** [np.reshape(tensor, newshape)] for a [newshape] without negative
    entries: the buffer is kept and only the shape changes, and a shape of
    another size raises [ValueError].  A negative entry is rejected too;
    numpy's [-1] placeholder is not modelled, and [convert_names] never
    passes one (see [get_new_shape_nonneg]). *)
Definition np_reshape (tensor : Tensor) (newshape : list Z) : res Tensor :=
  if forallb (Z.leb 0) newshape && (product newshape =? size tensor)
  then Ret {| shape := Z.to_N <$> newshape; buffer := buffer tensor |}
  else Raise ValueError.

(** [tf.Variable(tensor, name=var_name)]. *)
Record tf_Variable : Type := {
  initial_value : Tensor;
  name : string
}.

(** The source checkpoint behind [tf.train.NewCheckpointReader]: its
    variables in the order in which [get_variable_to_shape_map()] is
    iterated.  A checkpoint lists every name once; no result below needs
    that. *)
Definition Checkpoint : Type := list (string * Tensor).

(** The keys of [reader.get_variable_to_shape_map()], in iteration order. *)
Definition variable_names (reader : Checkpoint) : list string := reader.*1.

(** [reader.get_tensor(name)]. *)
Fixpoint get_tensor (reader : Checkpoint) (var_name : string) : res Tensor :=
  match reader with
  | [] => Raise NotFoundError
  | (n, tensor) :: rest =>
      if decide (n = var_name) then Ret tensor else get_tensor rest var_name
  end.

(** ** The conversion loop *)

(** What the loop of [convert_names] builds: the two dictionaries, and
    the names passed to [reader.get_tensor] so far. *)
Record State : Type := {
  new_variable_map : gmap string tf_Variable;
  conversion_map : gmap string string;
  tensor_reads : list string
}.

Definition initial_state : State :=
  {| new_variable_map := ∅; conversion_map := ∅; tensor_reads := [] |}.

(** Truth value of the [exclude_patterns] argument: [None] and the empty
    list are false. *)
Definition excluded (exclude_patterns : option (list string)) (var_name : string) : bool :=
  match exclude_patterns with
  | None => false
  | Some [] => false
  | Some (p :: rest) => _has_exclude_patterns var_name (p :: rest)
  end.

(** Truth value of [new_shape]: [None] and the empty tuple are false. *)
Definition reshape_wanted (new_shape : option (list Z)) : option (list Z) :=
  match new_shape with
  | None => None
  | Some [] => None
  | Some (d :: ds) => Some (d :: ds)
  end.

(** The body of [for var_name in name_shape_map]. *)
Definition convert_var (FLAGS : Flags) (reader : Checkpoint)
    (exclude_patterns : option (list string)) (st : State) (var_name : string)
    : res State :=
  if excluded exclude_patterns var_name then Ret st
  else
    let new_var_name := _bert_name_replacement FLAGS var_name in
    tensor ← get_tensor reader var_name;
    new_shape ←
      (if 0 <? num_heads FLAGS
       then _get_new_shape var_name (shape_tuple tensor) (num_heads FLAGS)
       else Ret None);
    tensor' ←
      match reshape_wanted new_shape with
      | Some newshape => np_reshape tensor newshape
      | None => Ret tensor
      end;
    let var := {| initial_value := tensor'; name := var_name |} in
    Ret {| new_variable_map := <[new_var_name := var]> (new_variable_map st);
           conversion_map :=
             if decide (new_var_name = var_name) then conversion_map st
             else <[var_name := new_var_name]> (conversion_map st);
           tensor_reads := tensor_reads st ++ [var_name] |}.

Fixpoint convert_loop (FLAGS : Flags) (reader : Checkpoint)
    (exclude_patterns : option (list string)) (names : list string) (st : State)
    : res State :=
  match names with
  | [] => Ret st
  | var_name :: rest =>
      st' ← convert_var FLAGS reader exclude_patterns st var_name;
      convert_loop FLAGS reader exclude_patterns rest st'
  end.

(** [convert_names], up to the point where [new_variable_map] is handed to
    [tf.train.Saver] and [conversion_map] is logged.  (The Python function
    itself returns nothing; the two dictionaries are what it saves and
    prints.)  [reader] stands for the checkpoint at
    [checkpoint_from_path]. *)
Definition convert_names (FLAGS : Flags) (reader : Checkpoint)
    (exclude_patterns : option (list string)) : res State :=
  convert_loop FLAGS reader exclude_patterns (variable_names reader) initial_state.

(** [main]: the flag is split at commas unless it is unset or empty. *)
Definition main (FLAGS : Flags) (reader : Checkpoint) : res State :=
  match exclude_patterns_flag FLAGS with
  | Some (String c s) =>
      exclude_patterns ← PyStr.split (String c s) ",";
      convert_names FLAGS reader (Some exclude_patterns)
  | _ => convert_names FLAGS reader None
  end.

(** * Vocabulary of the properties *)

(** [p] occurs in [s]: the specification's "contains as a substring". *)
Definition substring_of (p s : string) : Prop :=
  ∃ before after, s = before +:+ p +:+ after.

(** The name belongs to a query, value or key projection. *)
Definition qkv_name (name : string) : Prop :=
  substring_of "attention/self/query" name
  ∨ substring_of "attention/self/value" name
  ∨ substring_of "attention/self/key" name.

(** The flags as [absl] leaves them by default, and with [--use_v2_names]. *)
Definition v1_flags : Flags :=
  {| exclude_patterns_flag := None; num_heads := -1; use_v2_names := false |}.
Definition v2_flags : Flags :=
  {| exclude_patterns_flag := None; num_heads := -1; use_v2_names := true |}.

(** Reshaping switched on, for two heads. *)
Definition two_heads_flags : Flags :=
  {| exclude_patterns_flag := None; num_heads := 2; use_v2_names := false |}.

(** Which [return] of [_get_new_shape] a name reaches. *)
Inductive shape_rule : Set :=
| OutputKernel | OutputBias | QkvKernel | QkvBias | NoRule.

Definition rule_of (name : string) : shape_rule :=
  if PyStr.contains name "attention/output/dense/kernel" then OutputKernel
  else if PyStr.contains name "attention/output/dense/bias" then OutputBias
  else if existsb (PyStr.contains name) qkv_patterns then
    if PyStr.contains name "kernel" then QkvKernel
    else if PyStr.contains name "bias" then QkvBias
    else NoRule
  else NoRule.

(** The dimension the rule divides by the head count, if it divides one. *)
Definition split_dimension (name : string) (shape : list Z) : option Z :=
  match rule_of name with
  | OutputKernel => shape !! 0%nat
  | QkvKernel => shape !! 1%nat
  | QkvBias => shape !! 0%nat
  | OutputBias | NoRule => None
  end.

(** The number of dimensions the rule accounts for: both of a kernel, the
    single one of a query/value/key bias. *)
Definition expected_rank (name : string) : option nat :=
  match rule_of name with
  | OutputKernel | QkvKernel => Some 2%nat
  | QkvBias => Some 1%nat
  | OutputBias | NoRule => None
  end.

(** Lines 159-166 of [convert_names]: the tensor that ends up in the
    variable, reshaped when reshaping is on and the shape rule asks for it. *)
Definition stored_tensor (FLAGS : Flags) (var_name : string) (tensor : Tensor)
    : res Tensor :=
  new_shape ←
    (if 0 <? num_heads FLAGS
     then _get_new_shape var_name (shape_tuple tensor) (num_heads FLAGS)
     else Ret None);
  match reshape_wanted new_shape with
  | Some newshape => np_reshape tensor newshape
  | None => Ret tensor
  end.

(** Lines 167-170: the state after the variable has been recorded. *)
Definition record_var (FLAGS : Flags) (st : State) (var_name : string)
    (tensor' : Tensor) : State :=
  let new_var_name := _bert_name_replacement FLAGS var_name in
  {| new_variable_map :=
       <[new_var_name := {| initial_value := tensor'; name := var_name |}]>
         (new_variable_map st);
     conversion_map :=
       if decide (new_var_name = var_name) then conversion_map st
       else <[var_name := new_var_name]> (conversion_map st);
     tensor_reads := tensor_reads st ++ [var_name] |}.

(** The source variables a run converts: those the exclusion list lets
    through. *)
Definition converted_names (reader : Checkpoint)
    (exclude_patterns : option (list string)) : list string :=
  List.filter (λ var_name, negb (excluded exclude_patterns var_name))
    (variable_names reader).

(** The flag value has a leading, a trailing or a doubled comma. *)
Definition stray_comma (flag : string) : Prop :=
  (∃ rest, flag = "," +:+ rest)
  ∨ (∃ front, flag = front +:+ ",")
  ∨ substring_of ",," flag.

(** Checkpoints used as concrete inputs below. *)
Definition small_tensor : Tensor :=
  {| shape := [2%N; 2%N]; buffer := [11; 12; 21; 22] |}.

Definition chained_checkpoint : Checkpoint :=
  [ ("bert", small_tensor); ("bert_model", small_tensor) ].

Definition tiny_checkpoint : Checkpoint :=
  [ ("bert/embeddings/word_embeddings", small_tensor);
    ("bert/pooler/dense/kernel", small_tensor);
    ("global_step", {| shape := []; buffer := [7] |}) ].

(** The table [_bert_name_replacement] selects. *)
Definition active_replacements (FLAGS : Flags) : list (string * string) :=
  if use_v2_names FLAGS then BERT_V2_NAME_REPLACEMENTS else BERT_NAME_REPLACEMENTS.

(** [sep.join(fields)]. *)
Fixpoint join (sep : string) (fields : list string) : string :=
  match fields with
  | [] => ""
  | [w] => w
  | w :: ws => w +:+ sep +:+ join sep ws
  end.

(** The converted source variables that are rewritten to [key], in the
    order of the loop. *)
Definition writers (FLAGS : Flags) (reader : Checkpoint)
    (exclude_patterns : option (list string)) (key : string) : list string :=
  List.filter (λ var_name, bool_decide (_bert_name_replacement FLAGS var_name = key))
    (converted_names reader exclude_patterns).

(** The checkpoint with the excluded variables taken out. *)
Definition without_excluded (reader : Checkpoint)
    (exclude_patterns : option (list string)) : Checkpoint :=
  List.filter (λ entry, negb (excluded exclude_patterns entry.1)) reader.

(** A run with reshaping on and an exclusion list, for concrete inputs. *)
Definition twelve_heads_flags : Flags :=
  {| exclude_patterns_flag := Some "pooler,cls"; num_heads := 12;
     use_v2_names := false |}.

(** * Properties *)

(** ** Substrings *)

Section string_facts.
Import PyStr.

Lemma append_cons c s t : String c s +:+ t = String c (s +:+ t).
Proof. reflexivity. Qed.

Lemma append_nil t : "" +:+ t = t.
Proof. reflexivity. Qed.

Lemma append_assoc s t u : (s +:+ t) +:+ u = s +:+ t +:+ u.
Proof. induction s as [|c s IH]; [done|]. by rewrite !append_cons, IH. Qed.

Lemma startswith_spec s p : startswith s p = true ↔ ∃ t, s = p +:+ t.
Proof.
  revert s. induction p as [|a p IH]; intros s; simpl.
  - destruct s; split; eauto.
  - destruct s as [|b s]; simpl.
    + split; [done | by intros [t ?]].
    + setoid_rewrite append_cons.
      destruct (Ascii.eqb_spec a b) as [->|Hne].
      * rewrite IH. split; intros [t Ht]; exists t; congruence.
      * split; [done | intros [t Ht]; congruence].
Qed.

Lemma contains_spec s p : contains s p = true ↔ substring_of p s.
Proof.
  split.
  - induction s as [|c s IH]; cbn [contains]; rewrite orb_true_iff.
    + intros [H|H]; [|done].
      apply startswith_spec in H as [t ->]. by exists "", t.
    + intros [H|H].
      * apply startswith_spec in H as [t Ht]. by exists "", t.
      * destruct (IH H) as (a & b & ->). by exists (String c a), b.
  - intros (a & b & ->). induction a as [|c a IH].
    + rewrite append_nil.
      assert (startswith (p +:+ b) p = true) as Hp
        by (apply startswith_spec; eauto).
      destruct (p +:+ b); cbn [contains]; by rewrite Hp.
    + rewrite append_cons. cbn [contains]. by rewrite IH, orb_true_r.
Qed.

Lemma contains_false s p : contains s p = false ↔ ¬ substring_of p s.
Proof. rewrite <-contains_spec. by destruct (contains s p). Qed.

Lemma contains_empty s : contains s "" = true.
Proof. apply contains_spec. by exists "", s. Qed.

(** The three primitives on inputs whose Python results are known. *)
Example contains_examples :
  contains "bert/pooler/dense/kernel" "pooler" = true
  ∧ contains "bert/pooler/dense/kernel" "Pooler" = false
  ∧ contains "" "" = true
  ∧ contains "" "a" = false.
Proof. by vm_compute. Qed.

Example replace_examples :
  replace "output/dense/output/dense" "output/dense" "output" = "output/output"
  ∧ replace "aaa" "aa" "b" = "ba"
  ∧ replace "abc" "" "-" = "-a-b-c-"
  ∧ replace "bert/bert/x" "bert/" "" = "x".
Proof. by vm_compute. Qed.

Example split_examples :
  split "pooler,cls" "," = Ret ["pooler"; "cls"]
  ∧ split "pooler" "," = Ret ["pooler"]
  ∧ split ",pooler,,cls," "," = Ret [""; "pooler"; ""; "cls"; ""]
  ∧ split "xabyab" "ab" = Ret ["x"; "y"; ""].
Proof. by vm_compute. Qed.

End string_facts.

(** ** The name rewriter *)

Lemma apply_replacements_cons rule rules var_name :
  apply_replacements (rule :: rules) var_name
  = apply_replacements rules (replacement_step var_name rule).
Proof. reflexivity. Qed.

Lemma replacement_step_unmatched var_name src tgt :
  ¬ substring_of src var_name → replacement_step var_name (src, tgt) = var_name.
Proof. intros H. simpl. by apply contains_false in H as ->. Qed.

(** C6: under the v1 table "bert/embeddings/word_embeddings" becomes
    "bert_model/word_embeddings/embeddings".  The rewriter consumes the
    table in order, each rule acting on the name the earlier rules have
    produced, so a later rule can match text an earlier rule has put in
    place: "attention/self/output/dense" does not contain the source
    "attention/output/dense" of the seventh v1 rule, the name left by the
    first six rules does, and the seventh rule rewrites it. *)
Theorem name_rewriter_v1_word_embeddings :
  _bert_name_replacement v1_flags "bert/embeddings/word_embeddings"
  = "bert_model/word_embeddings/embeddings"
  ∧ (∀ rules earlier later var_name,
       apply_replacements (earlier ++ later :: rules) var_name
       = apply_replacements rules
           (replacement_step (apply_replacements earlier var_name) later))
  ∧ (let var_name := "attention/self/output/dense" in
     let earlier := take 6 BERT_NAME_REPLACEMENTS in
     BERT_NAME_REPLACEMENTS !! 6%nat
       = Some ("attention/output/dense", "self_attention_output")
     ∧ ¬ substring_of "attention/output/dense" var_name
     ∧ apply_replacements earlier var_name = "self_attention/output/dense"
     ∧ substring_of "attention/output/dense" (apply_replacements earlier var_name)
     ∧ _bert_name_replacement v1_flags var_name = "self_self_attention_output").
Proof.
  split; [by vm_compute|]. split.
  - intros rules earlier later var_name.
    unfold apply_replacements. by rewrite fold_left_app.
  - cbv zeta. split; [done|]. split; [|split; [|split]].
    + by apply contains_false.
    + by vm_compute.
    + by apply contains_spec.
    + by vm_compute.
Qed.

(** C9: the rewriter is not idempotent.  "bert_model" is what the v1
    rewriter makes of "bert", and rewriting it once more gives
    "bert_model_model": the rule "bert" -> "bert_model" matches inside its
    own earlier output. *)
Theorem name_rewriter_not_idempotent :
  _bert_name_replacement v1_flags "bert" = "bert_model"
  ∧ _bert_name_replacement v1_flags "bert_model" = "bert_model_model"
  ∧ replacement_step "bert_model" ("bert", "bert_model") = "bert_model_model"
  ∧ ¬ (∀ var_name,
         _bert_name_replacement v1_flags (_bert_name_replacement v1_flags var_name)
         = _bert_name_replacement v1_flags var_name).
Proof.
  split; [by vm_compute|]. split; [by vm_compute|]. split; [by vm_compute|].
  intros Hidem. specialize (Hidem "bert"). by vm_compute in Hidem.
Qed.

(** ** The shape rule *)

Lemma floordiv_pos a h : 0 < h → floordiv a h = Ret (a / h).
Proof. intros Hh. unfold floordiv. by destruct (Z.eqb_spec h 0); [lia|]. Qed.

(** The loop over the three projection patterns returns at the first
    pattern that occurs, and what it returns does not depend on which one
    that is. *)
Lemma qkv_loop_by_rule patterns name shape h :
  qkv_loop patterns name shape h =
  if existsb (PyStr.contains name) patterns then
    if PyStr.contains name "kernel" then
      d0 ← tuple_get shape 0; d1 ← tuple_get shape 1;
      q ← floordiv d1 h; Ret (Some [d0; h; q])
    else if PyStr.contains name "bias" then
      d0 ← tuple_get shape 0; q ← floordiv d0 h; Ret (Some [h; q])
    else Ret None
  else Ret None.
Proof.
  induction patterns as [|pattern rest IH]; [done|].
  cbn [qkv_loop existsb]. rewrite IH.
  destruct (PyStr.contains name pattern); cbn [orb]; [|done].
  destruct (PyStr.contains name "kernel"); [done|].
  destruct (PyStr.contains name "bias"); [done|].
  by destruct (existsb _ rest).
Qed.

Lemma get_new_shape_by_rule name shape h :
  _get_new_shape name shape h =
  match rule_of name with
  | OutputKernel =>
      d0 ← tuple_get shape 0; q ← floordiv d0 h;
      d1 ← tuple_get shape 1; Ret (Some [h; q; d1])
  | OutputBias => Ret (Some shape)
  | QkvKernel =>
      d0 ← tuple_get shape 0; d1 ← tuple_get shape 1;
      q ← floordiv d1 h; Ret (Some [d0; h; q])
  | QkvBias => d0 ← tuple_get shape 0; q ← floordiv d0 h; Ret (Some [h; q])
  | NoRule => Ret None
  end.
Proof.
  unfold _get_new_shape, rule_of. rewrite qkv_loop_by_rule.
  destruct (PyStr.contains name "attention/output/dense/kernel"); [done|].
  destruct (PyStr.contains name "attention/output/dense/bias"); [done|].
  destruct (existsb _ qkv_patterns); [|done].
  destruct (PyStr.contains name "kernel"); [done|].
  by destruct (PyStr.contains name "bias").
Qed.

Lemma qkv_name_patterns name :
  qkv_name name ↔ existsb (PyStr.contains name) qkv_patterns = true.
Proof.
  unfold qkv_name, qkv_patterns. cbn [existsb].
  rewrite !orb_true_iff, !contains_spec. intuition discriminate.
Qed.

Lemma rule_of_qkv_kernel name :
  qkv_name name → substring_of "kernel" name →
  ¬ substring_of "attention/output/dense/kernel" name →
  ¬ substring_of "attention/output/dense/bias" name →
  rule_of name = QkvKernel.
Proof.
  intros Hq%qkv_name_patterns Hk%contains_spec
    Hok%contains_false Hob%contains_false.
  unfold rule_of. by rewrite Hok, Hob, Hq, Hk.
Qed.

Lemma rule_of_qkv_bias name :
  qkv_name name → substring_of "bias" name → ¬ substring_of "kernel" name →
  ¬ substring_of "attention/output/dense/bias" name →
  rule_of name = QkvBias.
Proof.
  intros Hq%qkv_name_patterns Hb%contains_spec
    Hk%contains_false Hob%contains_false.
  assert (PyStr.contains name "attention/output/dense/kernel" = false) as Hok.
  { apply contains_false. intros (a & b & ->). apply contains_false in Hk.
    apply Hk. exists (a +:+ "attention/output/dense/"), b.
    by rewrite append_assoc. }
  unfold rule_of. by rewrite Hok, Hob, Hq, Hk, Hb.
Qed.

(** C2, as stated, fails: a name that contains a projection pattern and
    "kernel" may also contain "attention/output/dense/kernel", and that
    test comes first in [_get_new_shape]; the shape returned is then the
    one of the attention-output rule. *)
Lemma qkv_kernel_shape_counterexample :
  let name := "bert/encoder/layer_0/attention/self/query/attention/output/dense/kernel" in
  qkv_name name ∧ substring_of "kernel" name ∧ 0 < 12
  ∧ _get_new_shape name [768; 768] 12 = Ret (Some [12; 64; 768])
  ∧ _get_new_shape name [768; 768] 12 ≠ Ret (Some [768; 12; 768 / 12]).
Proof.
  cbv zeta. split; [left; by apply contains_spec|].
  split; [by apply contains_spec|]. split; [lia|]. by vm_compute.
Qed.

(** C2, amended: for every name that contains "attention/self/query",
    "attention/self/value" or "attention/self/key" and "kernel", and
    contains neither "attention/output/dense/kernel" nor
    "attention/output/dense/bias" (the two tests that come first), a 2-D
    shape (rows, cols) and a head count above zero give
    (rows, head_count, cols // head_count); (768, 768) and 12 heads give
    (768, 12, 64). *)
Theorem qkv_kernel_shape name :
  qkv_name name → substring_of "kernel" name →
  ¬ substring_of "attention/output/dense/kernel" name →
  ¬ substring_of "attention/output/dense/bias" name →
  (∀ rows cols h, 0 < h →
     _get_new_shape name [rows; cols] h = Ret (Some [rows; h; cols / h]))
  ∧ _get_new_shape name [768; 768] 12 = Ret (Some [768; 12; 64]).
Proof.
  intros Hq Hk Hok Hob.
  pose proof (rule_of_qkv_kernel name Hq Hk Hok Hob) as Hrule.
  assert (∀ rows cols h, 0 < h →
    _get_new_shape name [rows; cols] h = Ret (Some [rows; h; cols / h])) as Hgen.
  { intros rows cols h Hh. rewrite get_new_shape_by_rule, Hrule.
    cbn. by rewrite floordiv_pos. }
  split; [done|]. by rewrite Hgen.
Qed.

Lemma qkv_kernel_shape_witness :
  _get_new_shape "bert/encoder/layer_0/attention/self/query/kernel" [768; 768] 12
  = Ret (Some [768; 12; 64]).
Proof.
  apply (qkv_kernel_shape "bert/encoder/layer_0/attention/self/query/kernel").
  - left. apply contains_spec. reflexivity.
  - apply contains_spec. reflexivity.
  - apply contains_false. reflexivity.
  - apply contains_false. reflexivity.
Defined.

(** C3, as stated, fails: a name that contains a projection pattern and
    "bias" (and not "kernel") may also contain
    "attention/output/dense/bias", for which [_get_new_shape] returns the
    shape as it is before it looks at the projection patterns. *)
Lemma qkv_bias_shape_counterexample :
  let name := "bert/encoder/layer_0/attention/self/query/attention/output/dense/bias" in
  qkv_name name ∧ substring_of "bias" name ∧ ¬ substring_of "kernel" name ∧ 0 < 12
  ∧ _get_new_shape name [768] 12 = Ret (Some [768])
  ∧ _get_new_shape name [768] 12 ≠ Ret (Some [12; 768 / 12]).
Proof.
  cbv zeta. split; [left; by apply contains_spec|].
  split; [by apply contains_spec|]. split; [by apply contains_false|].
  split; [lia|]. by vm_compute.
Qed.

(** C3, amended: for every name that contains "attention/self/query",
    "attention/self/value" or "attention/self/key" and "bias", and
    contains neither "kernel" nor "attention/output/dense/bias", a 1-D
    shape (d,) and a head count above zero give
    (head_count, d // head_count), the sole dimension being the one
    divided; (768,) and 12 heads give (12, 64). *)
Theorem qkv_bias_shape name :
  qkv_name name → substring_of "bias" name → ¬ substring_of "kernel" name →
  ¬ substring_of "attention/output/dense/bias" name →
  (∀ d h, 0 < h → _get_new_shape name [d] h = Ret (Some [h; d / h]))
  ∧ _get_new_shape name [768] 12 = Ret (Some [12; 64]).
Proof.
  intros Hq Hb Hk Hob.
  pose proof (rule_of_qkv_bias name Hq Hb Hk Hob) as Hrule.
  assert (∀ d h, 0 < h →
    _get_new_shape name [d] h = Ret (Some [h; d / h])) as Hgen.
  { intros d h Hh. rewrite get_new_shape_by_rule, Hrule.
    cbn. by rewrite floordiv_pos. }
  split; [done|]. by rewrite Hgen.
Qed.

Lemma qkv_bias_shape_witness :
  _get_new_shape "bert/encoder/layer_0/attention/self/query/bias" [768] 12
  = Ret (Some [12; 64]).
Proof.
  apply (qkv_bias_shape "bert/encoder/layer_0/attention/self/query/bias").
  - left. apply contains_spec. reflexivity.
  - apply contains_spec. reflexivity.
  - apply contains_false. reflexivity.
  - apply contains_false. reflexivity.
Defined.

(** C5, as stated, fails: the rules read the first one or two dimensions
    only, so a shape with more dimensions than the rule accounts for comes
    back smaller.  A query kernel already stored per head, (768, 12, 64),
    has its second dimension 12 divided by 12 heads and comes back as
    (768, 12, 1). *)
Lemma shape_product_counterexample :
  let name := "bert/encoder/layer_0/attention/self/query/kernel" in
  let shape := [768; 12; 64] in
  0 < 12
  ∧ split_dimension name shape = Some 12 ∧ (12 | 12)
  ∧ _get_new_shape name shape 12 = Ret (Some [768; 12; 1])
  ∧ product [768; 12; 1] ≠ product shape.
Proof.
  cbv zeta. split; [lia|]. split; [by vm_compute|].
  split; [by exists 1|]. split; by vm_compute.
Qed.

(** C5, amended: for every name, head count above zero and original
    shape that has the number of dimensions the matching rule accounts
    for (two for the kernel rules, one for the query/value/key bias rule)
    and whose divided dimension is a multiple of the head count, the
    shape rule returns without raising, and a shape it returns has the
    same product of dimensions as the original. *)
Theorem shape_product_preserved name shape h :
  0 < h →
  (∀ r, expected_rank name = Some r → length shape = r) →
  (∀ d, split_dimension name shape = Some d → (h | d)) →
  ∃ r, _get_new_shape name shape h = Ret r
       ∧ ∀ new_shape, r = Some new_shape → product new_shape = product shape.
Proof.
  intros Hh Hrank Hdiv. rewrite get_new_shape_by_rule.
  unfold expected_rank, split_dimension in *.
  assert (∀ k, k * h / h = k) as Hq by (intros k; apply Z.div_mul; lia).
  destruct (rule_of name).
  - specialize (Hrank _ eq_refl).
    destruct shape as [|d0 [|d1 [|]]]; try discriminate Hrank.
    destruct (Hdiv d0 eq_refl) as [k ->]. cbn. rewrite floordiv_pos by done.
    eexists; split; [done|]. intros ? [= <-]. cbn. rewrite Hq. lia.
  - eexists; split; [done|]. by intros ? [= <-].
  - specialize (Hrank _ eq_refl).
    destruct shape as [|d0 [|d1 [|]]]; try discriminate Hrank.
    destruct (Hdiv d1 eq_refl) as [k ->]. cbn. rewrite floordiv_pos by done.
    eexists; split; [done|]. intros ? [= <-]. cbn. rewrite Hq. lia.
  - specialize (Hrank _ eq_refl).
    destruct shape as [|d0 [|]]; try discriminate Hrank.
    destruct (Hdiv d0 eq_refl) as [k ->]. cbn. rewrite floordiv_pos by done.
    eexists; split; [done|]. intros ? [= <-]. cbn. rewrite Hq. lia.
  - eexists; split; [done|]. done.
Qed.

Lemma shape_product_preserved_witness :
  ∃ r, _get_new_shape "bert/encoder/layer_0/attention/output/dense/kernel"
         [768; 768] 12 = Ret r
       ∧ ∀ new_shape, r = Some new_shape → product new_shape = product [768; 768].
Proof.
  apply (shape_product_preserved
           "bert/encoder/layer_0/attention/output/dense/kernel" [768; 768] 12).
  - lia.
  - intros r. vm_compute. intros [= <-]. reflexivity.
  - intros d. vm_compute. intros [= <-]. exists 64. reflexivity.
Defined.

(** ** The conversion loop *)


Lemma convert_var_excluded FLAGS reader exclude_patterns st var_name :
  excluded exclude_patterns var_name = true →
  convert_var FLAGS reader exclude_patterns st var_name = Ret st.
Proof. intros H. unfold convert_var. by rewrite H. Qed.

Lemma convert_var_kept FLAGS reader exclude_patterns st var_name tensor tensor' :
  excluded exclude_patterns var_name = false →
  get_tensor reader var_name = Ret tensor →
  stored_tensor FLAGS var_name tensor = Ret tensor' →
  convert_var FLAGS reader exclude_patterns st var_name
  = Ret (record_var FLAGS st var_name tensor').
Proof.
  intros Hex Hget. unfold convert_var, stored_tensor. rewrite Hex, Hget. cbn.
  destruct (if 0 <? num_heads FLAGS then _ else _) as [new_shape|]; cbn; [|done].
  by destruct (reshape_wanted new_shape); intros ->.
Qed.

Lemma convert_var_inv FLAGS reader exclude_patterns st var_name st' :
  convert_var FLAGS reader exclude_patterns st var_name = Ret st' →
  (excluded exclude_patterns var_name = true ∧ st' = st)
  ∨ (excluded exclude_patterns var_name = false
     ∧ ∃ tensor tensor',
         get_tensor reader var_name = Ret tensor
         ∧ stored_tensor FLAGS var_name tensor = Ret tensor'
         ∧ st' = record_var FLAGS st var_name tensor').
Proof.
  destruct (excluded exclude_patterns var_name) eqn:Hex.
  - rewrite convert_var_excluded by done. intros [= <-]. by left.
  - destruct (get_tensor reader var_name) as [tensor|] eqn:Hget.
    + destruct (stored_tensor FLAGS var_name tensor) as [tensor'|] eqn:Hst.
      * rewrite (convert_var_kept _ _ _ _ _ _ _ Hex Hget Hst).
        intros [= <-]. right. eauto 10.
      * unfold convert_var. rewrite Hex, Hget. cbn.
        unfold stored_tensor in Hst.
        destruct (if 0 <? num_heads FLAGS then _ else _) as [new_shape|];
          cbn in *; [|done].
        destruct (reshape_wanted new_shape); [|done]. by rewrite Hst.
    + unfold convert_var. by rewrite Hex, Hget.
Qed.

Lemma convert_loop_cons_inv FLAGS reader exclude_patterns var_name rest st st' :
  convert_loop FLAGS reader exclude_patterns (var_name :: rest) st = Ret st' →
  ∃ st1, convert_var FLAGS reader exclude_patterns st var_name = Ret st1
         ∧ convert_loop FLAGS reader exclude_patterns rest st1 = Ret st'.
Proof.
  cbn. destruct (convert_var _ _ _ _ _) as [st1|]; cbn; [eauto|done].
Qed.

(** Where an entry of [new_variable_map] comes from. *)
Lemma convert_loop_variable FLAGS reader exclude_patterns names st st' key var :
  convert_loop FLAGS reader exclude_patterns names st = Ret st' →
  new_variable_map st' !! key = Some var →
  new_variable_map st !! key = Some var
  ∨ (name var ∈ names
     ∧ excluded exclude_patterns (name var) = false
     ∧ key = _bert_name_replacement FLAGS (name var)
     ∧ ∃ tensor, get_tensor reader (name var) = Ret tensor
                 ∧ stored_tensor FLAGS (name var) tensor = Ret (initial_value var)).
Proof.
  revert st. induction names as [|var_name rest IH]; intros st Hloop Hkey.
  - injection Hloop as <-. by left.
  - apply convert_loop_cons_inv in Hloop as (st1 & Hvar & Hloop).
    destruct (IH _ Hloop Hkey) as [Hst1|(Hin & ? & ? & ?)].
    + apply convert_var_inv in Hvar
        as [[_ ->]|(Hex & tensor & tensor' & Hget & Hst & ->)]; [by left|].
      cbn in Hst1. rewrite lookup_insert in Hst1. case_decide as Heq.
      * injection Hst1 as <-. right. cbn.
        split; [apply elem_of_cons; by left|]. eauto 10.
      * by left.
    + right. split; [apply elem_of_cons; by right|]. eauto.
Qed.

(** Entries of [new_variable_map] are never removed. *)
Lemma convert_loop_keeps_keys FLAGS reader exclude_patterns names st st' key :
  convert_loop FLAGS reader exclude_patterns names st = Ret st' →
  is_Some (new_variable_map st !! key) → is_Some (new_variable_map st' !! key).
Proof.
  revert st. induction names as [|var_name rest IH]; intros st Hloop Hkey.
  - by injection Hloop as <-.
  - apply convert_loop_cons_inv in Hloop as (st1 & Hvar & Hloop).
    apply (IH _ Hloop).
    apply convert_var_inv in Hvar as [[_ ->]|(_ & ? & ? & _ & _ & ->)]; [done|].
    cbn. rewrite lookup_insert. case_decide; eauto.
Qed.

(** Every converted variable is stored under its new name. *)
Lemma convert_loop_stores FLAGS reader exclude_patterns names st st' var_name :
  convert_loop FLAGS reader exclude_patterns names st = Ret st' →
  var_name ∈ names → excluded exclude_patterns var_name = false →
  is_Some (new_variable_map st' !! _bert_name_replacement FLAGS var_name).
Proof.
  revert st. induction names as [|y rest IH]; intros st Hloop Hin Hex.
  - by apply elem_of_nil in Hin.
  - apply convert_loop_cons_inv in Hloop as (st1 & Hvar & Hloop).
    apply elem_of_cons in Hin as [->|Hin]; [|by eapply IH].
    apply (convert_loop_keeps_keys _ _ _ _ _ _ _ Hloop).
    apply convert_var_inv in Hvar
      as [[Hex' _]|(_ & ? & ? & _ & _ & ->)]; [congruence|].
    cbn. rewrite lookup_insert_eq. eauto.
Qed.

(** Where an entry of [conversion_map] comes from. *)
Lemma convert_loop_audit FLAGS reader exclude_patterns names st st' old new :
  convert_loop FLAGS reader exclude_patterns names st = Ret st' →
  conversion_map st' !! old = Some new →
  conversion_map st !! old = Some new
  ∨ (old ∈ names ∧ excluded exclude_patterns old = false
     ∧ new = _bert_name_replacement FLAGS old ∧ new ≠ old).
Proof.
  revert st. induction names as [|var_name rest IH]; intros st Hloop Hkey.
  - injection Hloop as <-. by left.
  - apply convert_loop_cons_inv in Hloop as (st1 & Hvar & Hloop).
    destruct (IH _ Hloop Hkey) as [Hst1|(Hin & ? & ? & ?)].
    + apply convert_var_inv in Hvar
        as [[_ ->]|(Hex & tensor & tensor' & Hget & Hst & ->)]; [by left|].
      cbn in Hst1. case_decide as Hsame; [by left|].
      rewrite lookup_insert in Hst1. case_decide as Heq; [|by left].
      injection Hst1 as <-. subst old. right.
      split; [apply elem_of_cons; by left|]. done.
    + right. split; [apply elem_of_cons; by right|]. done.
Qed.

(** The tensors read are those of the variables let through, in order. *)
Lemma convert_loop_reads FLAGS reader exclude_patterns names st st' :
  convert_loop FLAGS reader exclude_patterns names st = Ret st' →
  tensor_reads st'
  = tensor_reads st
    ++ List.filter (λ var_name, negb (excluded exclude_patterns var_name)) names.
Proof.
  revert st. induction names as [|var_name rest IH]; intros st Hloop.
  - injection Hloop as <-. cbn. by rewrite app_nil_r.
  - apply convert_loop_cons_inv in Hloop as (st1 & Hvar & Hloop).
    rewrite (IH _ Hloop). cbn [List.filter].
    apply convert_var_inv in Hvar as [[-> ->]|(-> & ? & ? & _ & _ & ->)]; [done|].
    cbn. by rewrite <-app_assoc.
Qed.

(** A name is a key of the final [new_variable_map] only as the new name
    of a converted variable. *)
Lemma convert_names_key_absent FLAGS reader exclude_patterns st key :
  convert_names FLAGS reader exclude_patterns = Ret st →
  (∀ var_name, var_name ∈ converted_names reader exclude_patterns →
               _bert_name_replacement FLAGS var_name ≠ key) →
  new_variable_map st !! key = None.
Proof.
  unfold convert_names, converted_names. intros Hrun Hnone.
  destruct (new_variable_map st !! key) as [var|] eqn:Hkey; [|done].
  destruct (convert_loop_variable _ _ _ _ _ _ _ _ Hrun Hkey)
    as [Hinit|(Hvar & Hkept & Hnew & _)]; [done|].
  exfalso. apply (Hnone (name var)); [|done].
  apply list_elem_of_In, filter_In. split; [by apply list_elem_of_In|].
  by apply negb_true_iff.
Qed.

(** C1, as stated, fails in its first half: the old name of an audit
    entry is a key of [new_variable_map] as soon as another converted
    variable is rewritten to it.  With the v1 table "bert" becomes
    "bert_model", and the source variable "bert_model" is itself renamed
    (to "bert_model_model"), so it is in the audit while its old name is a
    key of the new map. *)
Lemma audit_old_name_counterexample :
  ∃ st, convert_names v1_flags chained_checkpoint None = Ret st
        ∧ conversion_map st !! "bert_model" = Some "bert_model_model"
        ∧ new_variable_map st !! "bert_model"
          = Some {| initial_value := small_tensor; name := "bert" |}.
Proof. eexists. split; [by vm_compute|]. split; by vm_compute. Qed.

(** C1, amended: for every source checkpoint and every entry
    (old_name, new_name) of the rename audit a conversion produces,
    new_name is a key of [new_variable_map] (and differs from old_name);
    old_name is absent from the keys of [new_variable_map] exactly when no
    converted source variable is rewritten to old_name. *)
Theorem audit_consistency FLAGS reader exclude_patterns st old new :
  convert_names FLAGS reader exclude_patterns = Ret st →
  conversion_map st !! old = Some new →
  old ≠ new
  ∧ is_Some (new_variable_map st !! new)
  ∧ (new_variable_map st !! old = None
     ↔ ∀ var_name, var_name ∈ converted_names reader exclude_patterns →
                   _bert_name_replacement FLAGS var_name ≠ old).
Proof.
  intros Hrun Haudit. pose proof Hrun as Hloop. unfold convert_names in Hloop.
  destruct (convert_loop_audit _ _ _ _ _ _ _ _ Hloop Haudit)
    as [Hinit|(Hin & Hex & -> & Hne)]; [done|].
  split; [done|]. split; [by eapply convert_loop_stores|]. split.
  - intros Habsent var_name [Hvar Hkept]%list_elem_of_In%filter_In Hsame.
    apply list_elem_of_In in Hvar. apply negb_true_iff in Hkept.
    destruct (convert_loop_stores _ _ _ _ _ _ _ Hloop Hvar Hkept) as [var Hvar'].
    congruence.
  - by apply convert_names_key_absent.
Qed.

Lemma audit_consistency_witness :
  "bert/pooler/dense/kernel" ≠ "bert_model/pooler_transform/kernel"
  ∧ is_Some (new_variable_map
               {| new_variable_map :=
                    {[ "bert_model/pooler_transform/kernel" :=
                         {| initial_value := small_tensor;
                            name := "bert/pooler/dense/kernel" |} ]};
                  conversion_map :=
                    {[ "bert/pooler/dense/kernel" :=
                         "bert_model/pooler_transform/kernel" ]};
                  tensor_reads := ["bert/pooler/dense/kernel"] |}
             !! "bert_model/pooler_transform/kernel").
Proof.
  pose proof (audit_consistency v1_flags
    [("bert/pooler/dense/kernel", small_tensor)] None _
    "bert/pooler/dense/kernel" "bert_model/pooler_transform/kernel"
    ltac:(vm_compute; reflexivity) ltac:(vm_compute; reflexivity)) as (H1 & H2 & _).
  split; [exact H1 | exact H2].
Defined.

(** ** Reshaping inside the loop *)

(** With a head count above zero and a tensor (whose dimensions are never
    negative), no shape the rule returns has a negative entry. *)
Lemma get_new_shape_nonneg var_name tensor h new_shape :
  0 < h → _get_new_shape var_name (shape_tuple tensor) h = Ret (Some new_shape) →
  Forall (λ d, 0 ≤ d) new_shape.
Proof.
  intros Hh. rewrite get_new_shape_by_rule.
  assert (Forall (λ d, 0 ≤ d) (shape_tuple tensor)) as Hdims.
  { unfold shape_tuple. apply Forall_fmap, Forall_true. intros d. cbn. lia. }
  assert (∀ i d, tuple_get (shape_tuple tensor) i = Ret d → 0 ≤ d) as Hget.
  { intros i d. unfold tuple_get.
    destruct (shape_tuple tensor !! i) as [d'|] eqn:Hi; [|done].
    intros [= <-]. by eapply Forall_lookup_1 in Hdims. }
  assert (∀ a q, 0 ≤ a → floordiv a h = Ret q → 0 ≤ q) as Hdiv.
  { intros a q Ha. rewrite floordiv_pos by done. intros [= <-].
    apply Z.div_pos; lia. }
  destruct (rule_of var_name); cbn.
  - destruct (tuple_get _ 0) as [d0|] eqn:H0; cbn; [|done].
    destruct (floordiv d0 h) as [q|] eqn:Hq; cbn; [|done].
    destruct (tuple_get _ 1) as [d1|] eqn:H1; cbn; [|done].
    intros [= <-]. repeat constructor; eauto with lia.
  - by intros [= <-].
  - destruct (tuple_get _ 0) as [d0|] eqn:H0; cbn; [|done].
    destruct (tuple_get _ 1) as [d1|] eqn:H1; cbn; [|done].
    destruct (floordiv d1 h) as [q|] eqn:Hq; cbn; [|done].
    intros [= <-]. repeat constructor; eauto with lia.
  - destruct (tuple_get _ 0) as [d0|] eqn:H0; cbn; [|done].
    destruct (floordiv d0 h) as [q|] eqn:Hq; cbn; [|done].
    intros [= <-]. repeat constructor; eauto with lia.
  - done.
Qed.







(** ** Exclusion *)

Lemma has_exclude_patterns_spec var_name exclude_patterns :
  _has_exclude_patterns var_name exclude_patterns = true
  ↔ ∃ p, p ∈ exclude_patterns ∧ substring_of p var_name.
Proof.
  induction exclude_patterns as [|p rest IH]; cbn.
  - split; [done|]. by intros (p & ?%elem_of_nil & _).
  - destruct (PyStr.contains var_name p) eqn:Hp.
    + split; [|done]. intros _. exists p.
      split; [apply elem_of_cons; by left | by apply contains_spec].
    + rewrite IH. split.
      * intros (q & Hq & Hsub). exists q. split; [apply elem_of_cons; by right|done].
      * intros (q & [->|Hq]%elem_of_cons & Hsub); [|by exists q].
        apply contains_spec in Hsub. congruence.
Qed.

Lemma excluded_spec exclude_patterns var_name :
  excluded (Some exclude_patterns) var_name = true
  ↔ ∃ p, p ∈ exclude_patterns ∧ substring_of p var_name.
Proof.
  destruct exclude_patterns as [|p rest]; [|apply has_exclude_patterns_spec].
  cbn. split; [done|]. by intros (p & ?%elem_of_nil & _).
Qed.

Lemma convert_loop_all_excluded FLAGS reader exclude_patterns names st :
  (∀ var_name, excluded exclude_patterns var_name = true) →
  convert_loop FLAGS reader exclude_patterns names st = Ret st.
Proof.
  intros Hall. induction names as [|var_name rest IH]; [done|].
  cbn. by rewrite convert_var_excluded.
Qed.

(** C8: a name is excluded if and only if it contains at least one
    pattern of the list; an absent or empty list excludes nothing, and
    every variable of the checkpoint is then read.  A source variable
    whose name contains a pattern of the list is left out of the
    conversion: no variable stored in [new_variable_map] is made from it,
    the rename audit has no entry for it, and its tensor is not read.
    (Its name is a key of [new_variable_map] only if it is the new name
    of some other, converted variable.) *)
Theorem exclusion_complete :
  (∀ var_name exclude_patterns,
     _has_exclude_patterns var_name exclude_patterns = true
     ↔ ∃ p, p ∈ exclude_patterns ∧ substring_of p var_name)
  ∧ (∀ var_name exclude_patterns,
       excluded (Some exclude_patterns) var_name = true
       ↔ ∃ p, p ∈ exclude_patterns ∧ substring_of p var_name)
  ∧ (∀ var_name,
       excluded None var_name = false ∧ excluded (Some []) var_name = false)
  ∧ (∀ FLAGS reader exclude_patterns st,
       exclude_patterns = None ∨ exclude_patterns = Some [] →
       convert_names FLAGS reader exclude_patterns = Ret st →
       tensor_reads st = variable_names reader)
  ∧ (∀ FLAGS reader exclude_patterns st var_name,
       (∃ p, p ∈ exclude_patterns ∧ substring_of p var_name) →
       convert_names FLAGS reader (Some exclude_patterns) = Ret st →
       (∀ key var, new_variable_map st !! key = Some var → name var ≠ var_name)
       ∧ conversion_map st !! var_name = None
       ∧ (var_name ∉ tensor_reads st)
       ∧ ((∀ other, other ∈ converted_names reader (Some exclude_patterns) →
                    _bert_name_replacement FLAGS other ≠ var_name) →
          new_variable_map st !! var_name = None)).
Proof.
  split; [intros; apply has_exclude_patterns_spec|].
  split; [intros; apply excluded_spec|].
  split; [done|]. split.
  - intros FLAGS reader exclude_patterns st Hnone Hrun.
    apply convert_loop_reads in Hrun. rewrite Hrun. clear Hrun.
    change (tensor_reads initial_state) with (@nil string). rewrite app_nil_l.
    destruct Hnone as [->| ->];
      (induction (variable_names reader) as [|y rest IH]; cbn;
         [done | f_equal; exact IH]).
  - intros FLAGS reader exclude_patterns st var_name Hpat%excluded_spec Hrun.
    split; [|split; [|split]]; [| | |by apply convert_names_key_absent].
    all: unfold convert_names in Hrun.
    + intros key var Hkey <-.
      destruct (convert_loop_variable _ _ _ _ _ _ _ _ Hrun Hkey)
        as [Hinit|(_ & Hkept & _)]; [done|congruence].
    + destruct (conversion_map st !! var_name) as [new|] eqn:Haudit; [|done].
      destruct (convert_loop_audit _ _ _ _ _ _ _ _ Hrun Haudit)
        as [Hinit|(_ & Hkept & _)]; [done|congruence].
    + rewrite (convert_loop_reads _ _ _ _ _ _ Hrun).
      change (tensor_reads initial_state) with (@nil string). rewrite app_nil_l.
      intros [_ Hkept]%list_elem_of_In%filter_In.
      apply negb_true_iff in Hkept. congruence.
Qed.

Lemma exclusion_complete_witness :
  ∃ st, convert_names v1_flags tiny_checkpoint (Some ["pooler"]) = Ret st
        ∧ (∀ key var, new_variable_map st !! key = Some var →
             name var ≠ "bert/pooler/dense/kernel")
        ∧ conversion_map st !! "bert/pooler/dense/kernel" = None
        ∧ ("bert/pooler/dense/kernel" ∉ tensor_reads st)
        ∧ tensor_reads st = ["bert/embeddings/word_embeddings"; "global_step"].
Proof.
  eexists. split; [vm_compute; reflexivity|].
  pose proof (proj2 (proj2 (proj2 (proj2 exclusion_complete))) v1_flags
    tiny_checkpoint ["pooler"] _ "bert/pooler/dense/kernel"
    ltac:(exists "pooler"; split;
          [apply elem_of_cons; left; reflexivity
          |apply contains_spec; reflexivity])
    ltac:(vm_compute; reflexivity)) as (H1 & H2 & H3 & _).
  split; [exact H1|]. split; [exact H2|]. split; [exact H3|]. reflexivity.
Defined.

(** ** Empty patterns from the flag *)

Lemma startswith_nil s : PyStr.startswith s "" = true.
Proof. by destruct s. Qed.

(** Splitting at commas, one character at a time. *)
Lemma split_comma_cons c s :
  PyStr.split_from "," (String c s) 0 =
  if Ascii.eqb "," c then "" :: PyStr.split_from "," s 0
  else match PyStr.split_from "," s 0 with
       | w :: ws => String c w :: ws
       | [] => [String c ""]
       end.
Proof.
  cbn [PyStr.split_from PyStr.startswith].
  destruct (Ascii.eqb "," c); [|done]. by rewrite startswith_nil.
Qed.

(** Every comma closes the fields before it: the fields of
    [front , rest] are some fields, at least one, followed by the fields
    of [rest]. *)
Lemma split_comma_app front rest :
  ∃ w ws, PyStr.split_from "," (front +:+ "," +:+ rest) 0
          = (w :: ws) ++ PyStr.split_from "," rest 0.
Proof.
  induction front as [|c front (w & ws & IH)].
  - rewrite append_nil, append_cons, append_nil, split_comma_cons.
    by exists "", [].
  - rewrite append_cons, split_comma_cons, IH.
    destruct (Ascii.eqb "," c).
    + by exists "", (w :: ws).
    + by exists (String c w), ws.
Qed.

Lemma split_stray_comma flag :
  stray_comma flag → "" ∈ PyStr.split_from "," flag 0.
Proof.
  intros [[rest ->]|[[front ->]|(front & rest & ->)]].
  - rewrite append_cons, append_nil, split_comma_cons. apply elem_of_cons. by left.
  - destruct (split_comma_app front "") as (w & ws & Hsplit).
    change (front +:+ ",") with (front +:+ "," +:+ ""). rewrite Hsplit. apply elem_of_app. right. apply elem_of_cons. by left.
  - destruct (split_comma_app front ("," +:+ rest)) as (w & ws & Hsplit).
    change (",," +:+ rest) with ("," +:+ "," +:+ rest). rewrite Hsplit.
    apply elem_of_app. right.
    rewrite append_cons, append_nil, split_comma_cons. apply elem_of_cons. by left.
Qed.

Lemma stray_comma_nonempty flag : stray_comma flag → flag ≠ "".
Proof.
  intros [[rest ->]|[[front ->]|(front & rest & ->)]];
    [done | by destruct front | by destruct front].
Qed.

Lemma excluded_empty_pattern exclude_patterns var_name :
  "" ∈ exclude_patterns → excluded (Some exclude_patterns) var_name = true.
Proof.
  intros Hin. apply excluded_spec. exists "". split; [done|].
  by apply contains_spec, contains_empty.
Qed.

(** C10: when the exclusion list contains the empty string every
    variable name is excluded, and the conversion of any checkpoint ends
    with an empty [new_variable_map] and an empty rename audit, no tensor
    read.  A leading, a trailing or a doubled comma in the
    [exclude_patterns] flag puts the empty string into the list [main]
    passes on, so [main] then converts nothing. *)
Theorem empty_pattern_excludes_everything :
  (∀ exclude_patterns var_name,
     "" ∈ exclude_patterns → excluded (Some exclude_patterns) var_name = true)
  ∧ (∀ FLAGS reader exclude_patterns,
       "" ∈ exclude_patterns →
       convert_names FLAGS reader (Some exclude_patterns)
       = Ret {| new_variable_map := ∅; conversion_map := ∅; tensor_reads := [] |})
  ∧ (∀ flag,
       stray_comma flag →
       ∃ exclude_patterns,
         PyStr.split flag "," = Ret exclude_patterns ∧ "" ∈ exclude_patterns)
  ∧ (∀ FLAGS reader flag,
       exclude_patterns_flag FLAGS = Some flag → stray_comma flag →
       main FLAGS reader
       = Ret {| new_variable_map := ∅; conversion_map := ∅; tensor_reads := [] |}).
Proof.
  assert (∀ FLAGS reader exclude_patterns,
    "" ∈ exclude_patterns →
    convert_names FLAGS reader (Some exclude_patterns) = Ret initial_state) as Hrun.
  { intros FLAGS reader exclude_patterns Hin. unfold convert_names.
    apply convert_loop_all_excluded. intros var_name.
    by apply excluded_empty_pattern. }
  split; [intros; by apply excluded_empty_pattern|]. split; [done|]. split.
  - intros flag Hflag. eexists. split; [done|]. by apply split_stray_comma.
  - intros FLAGS reader flag Hset Hflag. unfold main. rewrite Hset.
    pose proof (stray_comma_nonempty _ Hflag).
    destruct flag as [|c flag]; [done|].
    change (PyStr.split (String c flag) ",")
      with (Ret (PyStr.split_from "," (String c flag) 0)).
    change (convert_names FLAGS reader
              (Some (PyStr.split_from "," (String c flag) 0)) = Ret initial_state).
    by apply Hrun, split_stray_comma.
Qed.

Lemma empty_pattern_excludes_everything_witness :
  main {| exclude_patterns_flag := Some "pooler,"; num_heads := 12;
          use_v2_names := false |} tiny_checkpoint
  = Ret {| new_variable_map := ∅; conversion_map := ∅; tensor_reads := [] |}.
Proof.
  apply (proj2 (proj2 (proj2 empty_pattern_excludes_everything))
           {| exclude_patterns_flag := Some "pooler,"; num_heads := 12;
              use_v2_names := false |} tiny_checkpoint "pooler,").
  - reflexivity.
  - right. left. exists "pooler". reflexivity.
Defined.


(** * Further properties of the converter *)

(** ** The name rewriter as a chain of replacements *)

Lemma replace_from_absent old new s :
  PyStr.contains s old = false → PyStr.replace_from old new s 0 = s.
Proof.
  induction s as [|c s IH]; [done|].
  cbn [PyStr.contains PyStr.replace_from].
  intros [Hhere Hlater]%orb_false_iff. by rewrite Hhere, IH.
Qed.

(** [s.replace(old, new)] leaves a string without [old] as it is. *)
Lemma replace_absent s old new :
  ¬ substring_of old s → PyStr.replace s old new = s.
Proof.
  intros Hno%contains_false. destruct old as [|a old].
  - by rewrite contains_empty in Hno.
  - by apply replace_from_absent.
Qed.

Lemma replacement_step_replace var_name src tgt :
  replacement_step var_name (src, tgt) = PyStr.replace var_name src tgt.
Proof.
  cbn. destruct (PyStr.contains var_name src) eqn:Hin; [done|].
  symmetry. by apply replace_absent, contains_false.
Qed.

(** X1: a name that contains no source pattern of the selected table comes
    back from the rewriter unchanged, under either table. *)
Theorem name_rewriter_unmatched FLAGS var_name :
  (∀ src tgt, (src, tgt) ∈ active_replacements FLAGS → ¬ substring_of src var_name) →
  _bert_name_replacement FLAGS var_name = var_name.
Proof.
  unfold _bert_name_replacement, active_replacements, apply_replacements.
  generalize (if use_v2_names FLAGS then BERT_V2_NAME_REPLACEMENTS
              else BERT_NAME_REPLACEMENTS).
  intros rules. induction rules as [|[src tgt] rules IH]; intros Hno; [done|].
  cbn [fold_left]. rewrite replacement_step_unmatched.
  - apply IH. intros s t Hin. apply (Hno s t), elem_of_cons. by right.
  - apply (Hno src tgt), elem_of_cons. by left.
Qed.

Lemma name_rewriter_unmatched_witness :
  _bert_name_replacement v2_flags "global_step" = "global_step".
Proof.
  apply (name_rewriter_unmatched v2_flags "global_step").
  intros src tgt Hin. apply contains_false.
  repeat (apply elem_of_cons in Hin as [[= -> ->]|Hin]; [reflexivity|]).
  by apply elem_of_nil in Hin.
Defined.

(** X2: the membership test in the loop of the rewriter only decides
    whether a line is logged: the result is what the plain chain of
    [replace] calls over the table gives. *)
Theorem name_rewriter_is_replace_chain FLAGS var_name :
  _bert_name_replacement FLAGS var_name
  = fold_left (λ current rule, PyStr.replace current rule.1 rule.2)
      (active_replacements FLAGS) var_name.
Proof.
  unfold _bert_name_replacement, active_replacements, apply_replacements.
  generalize (if use_v2_names FLAGS then BERT_V2_NAME_REPLACEMENTS
              else BERT_NAME_REPLACEMENTS).
  intros rules. revert var_name.
  induction rules as [|[src tgt] rules IH]; intros var_name; [done|].
  cbn [fold_left]. by rewrite replacement_step_replace, IH.
Qed.

(** ** Errors of the shape rule *)

Lemma rule_of_none name :
  ¬ substring_of "attention/output/dense/kernel" name →
  ¬ substring_of "attention/output/dense/bias" name →
  ¬ qkv_name name ∨ (¬ substring_of "kernel" name ∧ ¬ substring_of "bias" name) →
  rule_of name = NoRule.
Proof.
  intros Hok%contains_false Hob%contains_false Hrest.
  unfold rule_of. rewrite Hok, Hob.
  destruct (existsb _ qkv_patterns) eqn:Hq; [|done].
  destruct Hrest as [Hno|[Hk%contains_false Hb%contains_false]].
  - by apply qkv_name_patterns in Hq.
  - by rewrite Hk, Hb.
Qed.

(** X3: a name that contains neither attention-output pattern and either
    no query/value/key pattern or neither "kernel" nor "bias" gets [None]
    from the shape rule, whatever the shape and the head count: no index
    is read and nothing is divided, so an empty shape or a head count of
    zero raise nothing.  Such a variable is stored with the tensor as
    read, under every setting of the flags. *)
Theorem shape_rule_leaves_other_names name :
  ¬ substring_of "attention/output/dense/kernel" name →
  ¬ substring_of "attention/output/dense/bias" name →
  ¬ qkv_name name ∨ (¬ substring_of "kernel" name ∧ ¬ substring_of "bias" name) →
  (∀ shape h, _get_new_shape name shape h = Ret None)
  ∧ (∀ FLAGS tensor, stored_tensor FLAGS name tensor = Ret tensor).
Proof.
  intros Hok Hob Hrest.
  assert (∀ shape h, _get_new_shape name shape h = Ret None) as Hnone.
  { intros shape h.
    by rewrite get_new_shape_by_rule, (rule_of_none name Hok Hob Hrest). }
  split; [done|]. intros FLAGS tensor. unfold stored_tensor.
  destruct (0 <? num_heads FLAGS); [|done]. by rewrite Hnone.
Qed.

Lemma shape_rule_leaves_other_names_witness :
  _get_new_shape "bert/encoder/layer_0/attention/self/query/gamma" [] 0 = Ret None
  ∧ stored_tensor twelve_heads_flags
      "bert/encoder/layer_0/attention/self/query/gamma" small_tensor
    = Ret small_tensor.
Proof.
  destruct (shape_rule_leaves_other_names
              "bert/encoder/layer_0/attention/self/query/gamma") as [Hrule Hstored].
  - apply contains_false. reflexivity.
  - apply contains_false. reflexivity.
  - right. split; apply contains_false; reflexivity.
  - split; [apply Hrule | apply Hstored].
Defined.

(** X4: the errors of the attention-output kernel rule, in the order in
    which Python meets them: an empty shape raises [IndexError] before
    anything is divided; a head count of zero then raises
    [ZeroDivisionError]; a 1-D shape with a non-zero head count raises
    [IndexError] at its second index; from two dimensions on, a non-zero
    head count (a negative one too) gives a shape, and further dimensions
    are dropped. *)
Theorem output_kernel_rule_errors name :
  substring_of "attention/output/dense/kernel" name →
  (∀ h, _get_new_shape name [] h = Raise IndexError)
  ∧ (∀ d0 rest, _get_new_shape name (d0 :: rest) 0 = Raise ZeroDivisionError)
  ∧ (∀ d0 h, h ≠ 0 → _get_new_shape name [d0] h = Raise IndexError)
  ∧ (∀ d0 d1 rest h, h ≠ 0 →
       _get_new_shape name (d0 :: d1 :: rest) h = Ret (Some [h; d0 / h; d1])).
Proof.
  intros Hk%contains_spec.
  assert (∀ a h, h ≠ 0 → floordiv a h = Ret (a / h)) as Hdiv.
  { intros a h Hh. unfold floordiv. by destruct (Z.eqb_spec h 0). }
  unfold _get_new_shape. rewrite Hk.
  split; [done|]. split; [done|]. split.
  - intros d0 h Hh. cbn. by rewrite Hdiv.
  - intros d0 d1 rest h Hh. cbn. by rewrite Hdiv.
Qed.

Lemma output_kernel_rule_errors_witness :
  _get_new_shape "bert/encoder/layer_0/attention/output/dense/kernel" [768] 12
  = Raise IndexError.
Proof.
  apply (proj1 (proj2 (proj2 (output_kernel_rule_errors
           "bert/encoder/layer_0/attention/output/dense/kernel"
           ltac:(apply contains_spec; reflexivity))))).
  discriminate.
Defined.

(** X5: the errors of the query/value/key rules.  For a kernel both
    indices are read before the division, so a shape of fewer than two
    dimensions raises [IndexError] even when the head count is zero, and
    a head count of zero raises [ZeroDivisionError] only from two
    dimensions on.  For a bias an empty shape raises [IndexError] and a
    head count of zero on a non-empty shape [ZeroDivisionError]. *)
Theorem qkv_rule_errors name :
  qkv_name name →
  ¬ substring_of "attention/output/dense/kernel" name →
  ¬ substring_of "attention/output/dense/bias" name →
  (substring_of "kernel" name →
     (∀ h, _get_new_shape name [] h = Raise IndexError)
     ∧ (∀ d0 h, _get_new_shape name [d0] h = Raise IndexError)
     ∧ (∀ d0 d1 rest,
          _get_new_shape name (d0 :: d1 :: rest) 0 = Raise ZeroDivisionError))
  ∧ (substring_of "bias" name → ¬ substring_of "kernel" name →
       (∀ h, _get_new_shape name [] h = Raise IndexError)
       ∧ (∀ d0 rest, _get_new_shape name (d0 :: rest) 0 = Raise ZeroDivisionError)
       ∧ (∀ d0 rest h, h ≠ 0 →
            _get_new_shape name (d0 :: rest) h = Ret (Some [h; d0 / h]))).
Proof.
  intros Hq Hok Hob. split.
  - intros Hk. pose proof (rule_of_qkv_kernel name Hq Hk Hok Hob) as Hrule.
    repeat split; intros; by rewrite get_new_shape_by_rule, Hrule.
  - intros Hb Hk. pose proof (rule_of_qkv_bias name Hq Hb Hk Hob) as Hrule.
    split; [|split]; intros; rewrite get_new_shape_by_rule, Hrule; [done..|].
    cbn. unfold floordiv. by destruct (Z.eqb_spec h 0).
Qed.

Lemma qkv_rule_errors_witness :
  _get_new_shape "bert/encoder/layer_0/attention/self/key/kernel" [768] 0
  = Raise IndexError
  ∧ _get_new_shape "bert/encoder/layer_0/attention/self/key/bias" [768] 0
    = Raise ZeroDivisionError.
Proof.
  split.
  - apply (proj1 (qkv_rule_errors "bert/encoder/layer_0/attention/self/key/kernel"
      ltac:(right; right; apply contains_spec; reflexivity)
      ltac:(apply contains_false; reflexivity)
      ltac:(apply contains_false; reflexivity))).
    apply contains_spec. reflexivity.
  - apply (proj2 (qkv_rule_errors "bert/encoder/layer_0/attention/self/key/bias"
      ltac:(right; right; apply contains_spec; reflexivity)
      ltac:(apply contains_false; reflexivity)
      ltac:(apply contains_false; reflexivity))).
    + apply contains_spec. reflexivity.
    + apply contains_false. reflexivity.
Defined.

(** ** What reshaping does to a tensor *)

Lemma shape_tuple_nonneg tensor : forallb (Z.leb 0) (shape_tuple tensor) = true.
Proof.
  unfold shape_tuple. induction (shape tensor) as [|d ds IH]; [done|].
  cbn. rewrite IH, andb_true_r. apply Z.leb_le. lia.
Qed.

Lemma to_N_of_N (dims : list N) : Z.to_N <$> (Z.of_N <$> dims) = dims.
Proof. induction dims as [|d ds IH]; [done|]. cbn. by rewrite N2Z.id, IH. Qed.

Lemma of_N_to_N (dims : list Z) :
  forallb (Z.leb 0) dims = true → Z.of_N <$> (Z.to_N <$> dims) = dims.
Proof.
  induction dims as [|d ds IH]; [done|]. cbn.
  intros [Hd%Z.leb_le Hds]%andb_true_iff. by rewrite Z2N.id, IH.
Qed.

(** Reshaping a tensor to its own shape gives the tensor back. *)
Lemma np_reshape_same tensor : np_reshape tensor (shape_tuple tensor) = Ret tensor.
Proof.
  unfold np_reshape, size.
  rewrite shape_tuple_nonneg, Z.eqb_refl. cbn [andb].
  unfold shape_tuple. rewrite to_N_of_N. by destruct tensor.
Qed.

(** A reshape that goes through keeps the buffer and the element count. *)
Lemma np_reshape_keeps tensor newshape tensor' :
  np_reshape tensor newshape = Ret tensor' →
  buffer tensor' = buffer tensor ∧ size tensor' = size tensor
  ∧ shape_tuple tensor' = newshape.
Proof.
  unfold np_reshape.
  destruct (forallb (Z.leb 0) newshape) eqn:Hpos; [|done].
  destruct (Z.eqb_spec (product newshape) (size tensor)) as [Hsize|]; [|done].
  cbn. intros [= <-]. unfold size at 1, shape_tuple. cbn.
  by rewrite of_N_to_N.
Qed.

Lemma stored_tensor_keeps FLAGS var_name tensor tensor' :
  stored_tensor FLAGS var_name tensor = Ret tensor' →
  buffer tensor' = buffer tensor ∧ size tensor' = size tensor.
Proof.
  unfold stored_tensor.
  destruct (if 0 <? num_heads FLAGS then _ else _) as [new_shape|]; [|done].
  cbn. destruct (reshape_wanted new_shape) as [newshape|].
  - intros Hre. by destruct (np_reshape_keeps _ _ _ Hre) as (? & ? & _).
  - by intros [= <-].
Qed.

(** X6: an attention-output bias is stored exactly as it was read, for
    every head count: with reshaping on the rule hands back the tensor's
    own shape, and reshaping to it changes nothing (a scalar's empty
    shape counts as false and is not reshaped at all). *)
Theorem output_bias_stored_unchanged FLAGS var_name tensor :
  substring_of "attention/output/dense/bias" var_name →
  ¬ substring_of "attention/output/dense/kernel" var_name →
  stored_tensor FLAGS var_name tensor = Ret tensor.
Proof.
  intros Hb%contains_spec Hk%contains_false. unfold stored_tensor.
  destruct (0 <? num_heads FLAGS); [|done].
  unfold _get_new_shape. rewrite Hk, Hb. cbn.
  destruct (shape_tuple tensor) as [|d ds] eqn:Hshape; [done|].
  cbn. rewrite <-Hshape. apply np_reshape_same.
Qed.

Lemma output_bias_stored_unchanged_witness :
  stored_tensor twelve_heads_flags
    "bert/encoder/layer_0/attention/output/dense/bias"
    {| shape := [768%N]; buffer := [] |}
  = Ret {| shape := [768%N]; buffer := [] |}.
Proof.
  apply (output_bias_stored_unchanged twelve_heads_flags
           "bert/encoder/layer_0/attention/output/dense/bias").
  - apply contains_spec. reflexivity.
  - apply contains_false. reflexivity.
Defined.

(** X7: a conversion never resizes or rewrites data: every variable in
    the final [new_variable_map] carries the buffer of the source
    variable it is named after, and a shape with the same number of
    elements. *)
Theorem stored_variables_keep_data FLAGS reader exclude_patterns st key var :
  convert_names FLAGS reader exclude_patterns = Ret st →
  new_variable_map st !! key = Some var →
  ∃ tensor, get_tensor reader (name var) = Ret tensor
            ∧ buffer (initial_value var) = buffer tensor
            ∧ size (initial_value var) = size tensor.
Proof.
  unfold convert_names. intros Hrun Hkey.
  destruct (convert_loop_variable _ _ _ _ _ _ _ _ Hrun Hkey)
    as [Hinit|(_ & _ & _ & tensor & Hget & Hstored)]; [done|].
  exists tensor. split; [done|]. by apply stored_tensor_keeps in Hstored.
Qed.

Lemma stored_variables_keep_data_witness :
  ∃ tensor,
    get_tensor [("bert/encoder/layer_0/attention/output/dense/kernel", small_tensor)]
      "bert/encoder/layer_0/attention/output/dense/kernel" = Ret tensor
    ∧ buffer {| shape := [2%N; 1%N; 2%N]; buffer := [11; 12; 21; 22] |}
      = buffer tensor
    ∧ size {| shape := [2%N; 1%N; 2%N]; buffer := [11; 12; 21; 22] |}
      = size tensor.
Proof.
  apply (stored_variables_keep_data two_heads_flags
    [("bert/encoder/layer_0/attention/output/dense/kernel", small_tensor)] None
    {| new_variable_map :=
         {[ "bert_model/encoder/layer_0/self_attention_output/kernel" :=
              {| initial_value :=
                   {| shape := [2%N; 1%N; 2%N]; buffer := [11; 12; 21; 22] |};
                 name := "bert/encoder/layer_0/attention/output/dense/kernel" |} ]};
       conversion_map :=
         {[ "bert/encoder/layer_0/attention/output/dense/kernel" :=
              "bert_model/encoder/layer_0/self_attention_output/kernel" ]};
       tensor_reads := ["bert/encoder/layer_0/attention/output/dense/kernel"] |}
    "bert_model/encoder/layer_0/self_attention_output/kernel"
    {| initial_value := {| shape := [2%N; 1%N; 2%N]; buffer := [11; 12; 21; 22] |};
       name := "bert/encoder/layer_0/attention/output/dense/kernel" |}).
  - vm_compute. reflexivity.
  - vm_compute. reflexivity.
Defined.

(** ** When a conversion goes through, and how it fails *)




(** The loop goes through exactly when every variable it does not skip can
    be read and stored. *)
Lemma convert_loop_succeeds FLAGS reader exclude_patterns names st :
  (∃ st', convert_loop FLAGS reader exclude_patterns names st = Ret st')
  ↔ ∀ var_name, var_name ∈ names → excluded exclude_patterns var_name = false →
      ∃ tensor tensor', get_tensor reader var_name = Ret tensor
                        ∧ stored_tensor FLAGS var_name tensor = Ret tensor'.
Proof.
  revert st. induction names as [|y rest IH]; intros st.
  - split; [by intros _ ? ?%elem_of_nil | by eexists].
  - split.
    + intros [st' Hloop] var_name Hin Hex.
      apply convert_loop_cons_inv in Hloop as (st1 & Hvar & Hloop).
      apply elem_of_cons in Hin as [->|Hin].
      * apply convert_var_inv in Hvar as [[? _]|(_ & t & t' & ? & ? & _)];
          [congruence|eauto].
      * eapply IH; eauto.
    + intros Hall. cbn.
      assert (∃ st1, convert_var FLAGS reader exclude_patterns st y = Ret st1)
        as [st1 ->].
      { destruct (excluded exclude_patterns y) eqn:Hex.
        - rewrite convert_var_excluded by done. by eexists.
        - destruct (Hall y) as (t & t' & Hget & Hst); [apply elem_of_cons; by left|done|].
          erewrite convert_var_kept by done. by eexists. }
      cbn. apply IH. intros var_name Hin. apply Hall, elem_of_cons. by right.
Qed.





(** X10: a head count that does not divide the dimension a rule splits
    makes the reshape fail: for a non-empty tensor of the rank the rule
    for its name accounts for, with reshaping on, storing the tensor
    raises [ValueError], and a checkpoint that holds such a variable
    outside the exclusion list has no conversion. *)
Theorem indivisible_head_count_aborts FLAGS reader exclude_patterns var_name tensor d :
  0 < num_heads FLAGS →
  expected_rank var_name = Some (length (shape_tuple tensor)) →
  split_dimension var_name (shape_tuple tensor) = Some d →
  d `mod` num_heads FLAGS ≠ 0 →
  size tensor ≠ 0 →
  stored_tensor FLAGS var_name tensor = Raise ValueError
  ∧ (var_name ∈ converted_names reader exclude_patterns →
     get_tensor reader var_name = Ret tensor →
     ∃ e, convert_names FLAGS reader exclude_patterns = Raise e).
Proof.
  intros Hh Hrank Hsplit Hmod Hsize.
  assert (stored_tensor FLAGS var_name tensor = Raise ValueError) as Hstored.
  { unfold stored_tensor. destruct (Z.ltb_spec 0 (num_heads FLAGS)); [|lia].
    set (h := num_heads FLAGS) in *.
    assert (∀ a c, a `mod` h ≠ 0 → c ≠ 0 → h * (a / h) * c ≠ a * c) as Hne.
    { intros a c Ha Hc Heq. pose proof (Z.div_mod a h ltac:(lia)). nia. }
    unfold size, expected_rank, split_dimension in *.
    rewrite get_new_shape_by_rule. unfold np_reshape, size.
    destruct (rule_of var_name); try discriminate Hrank.
    - destruct (shape_tuple tensor) as [|d0 [|d1 [|]]]; try discriminate Hrank.
      injection Hsplit as ->. cbn in *. rewrite floordiv_pos by done. cbn.
      destruct (Z.eqb_spec (h * (d / h * (d1 * 1))) (d * (d1 * 1))) as [Heq|];
        [|by rewrite andb_false_r].
      exfalso. apply (Hne d d1); [done|lia|lia].
    - destruct (shape_tuple tensor) as [|d0 [|d1 [|]]]; try discriminate Hrank.
      injection Hsplit as ->. cbn in *. rewrite floordiv_pos by done. cbn.
      destruct (Z.eqb_spec (d0 * (h * (d / h * 1))) (d0 * (d * 1))) as [Heq|];
        [|by rewrite andb_false_r].
      exfalso. apply (Hne d d0); [done|lia|lia].
    - destruct (shape_tuple tensor) as [|d0 [|]]; try discriminate Hrank.
      injection Hsplit as ->. cbn in *. rewrite floordiv_pos by done. cbn.
      destruct (Z.eqb_spec (h * (d / h * 1)) (d * 1)) as [Heq|];
        [|by rewrite andb_false_r].
      exfalso. apply (Hne d 1); [done|lia|lia]. }
  split; [done|]. intros Hin Hget.
  destruct (convert_names FLAGS reader exclude_patterns) as [st|e] eqn:Hrun;
    [|by eexists].
  exfalso. unfold convert_names, converted_names in *.
  apply list_elem_of_In, filter_In in Hin as [Hin Hkept%negb_true_iff].
  apply list_elem_of_In in Hin.
  destruct (proj1 (convert_loop_succeeds _ _ _ _ _) (ex_intro _ st Hrun)
              var_name Hin Hkept) as (t & t' & Hget' & Hst').
  congruence.
Qed.

Lemma indivisible_head_count_aborts_witness :
  stored_tensor twelve_heads_flags "bert/encoder/layer_0/attention/self/query/bias"
    {| shape := [100%N]; buffer := [] |} = Raise ValueError.
Proof.
  apply (indivisible_head_count_aborts twelve_heads_flags [] None
           "bert/encoder/layer_0/attention/self/query/bias"
           {| shape := [100%N]; buffer := [] |} 100).
  - reflexivity.
  - reflexivity.
  - reflexivity.
  - vm_compute. discriminate.
  - vm_compute. discriminate.
Defined.

(** ** The two dictionaries in full *)

Lemma convert_loop_last_writer FLAGS reader exclude_patterns names st st' key :
  convert_loop FLAGS reader exclude_patterns names st = Ret st' →
  name <$> new_variable_map st' !! key
  = match last (List.filter
                  (λ y, bool_decide (_bert_name_replacement FLAGS y = key))
                  (List.filter (λ y, negb (excluded exclude_patterns y)) names)) with
    | Some y => Some y
    | None => name <$> new_variable_map st !! key
    end.
Proof.
  revert st. induction names as [|y rest IH]; intros st Hloop.
  - by injection Hloop as <-.
  - apply convert_loop_cons_inv in Hloop as (st1 & Hvar & Hloop).
    rewrite (IH _ Hloop). cbn [List.filter].
    apply convert_var_inv in Hvar as [[-> ->]|(-> & t & t' & _ & _ & ->)]; [done|].
    cbn [negb List.filter new_variable_map record_var].
    case_bool_decide as Hkey.
    + rewrite last_cons. destruct (last _); [done|].
      by rewrite Hkey, lookup_insert_eq.
    + destruct (last _); [done|]. by rewrite lookup_insert_ne.
Qed.

(** X11: when several converted variables are rewritten to one new name,
    the last of them in the order of the loop is the one stored: the
    variable under a key of the final [new_variable_map] is named after
    the last converted source variable whose new name is that key, and a
    key no converted variable is rewritten to is absent. *)
Theorem last_writer_wins FLAGS reader exclude_patterns st key :
  convert_names FLAGS reader exclude_patterns = Ret st →
  name <$> new_variable_map st !! key
  = last (writers FLAGS reader exclude_patterns key).
Proof.
  unfold convert_names, writers, converted_names. intros Hrun.
  rewrite (convert_loop_last_writer _ _ _ _ _ _ key Hrun).
  by destruct (last _).
Qed.

Lemma last_writer_wins_witness :
  ∃ st, convert_names v1_flags
          [("x/output/dense", small_tensor); ("x/output", small_tensor)] None = Ret st
        ∧ name <$> new_variable_map st !! "x/output" = Some "x/output".
Proof.
  eexists. split; [vm_compute; reflexivity|].
  etrans.
  - apply (last_writer_wins v1_flags
             [("x/output/dense", small_tensor); ("x/output", small_tensor)] None).
    vm_compute. reflexivity.
  - vm_compute. reflexivity.
Defined.

Lemma convert_loop_keeps_audit FLAGS reader exclude_patterns names st st' old :
  convert_loop FLAGS reader exclude_patterns names st = Ret st' →
  conversion_map st !! old = Some (_bert_name_replacement FLAGS old) →
  conversion_map st' !! old = Some (_bert_name_replacement FLAGS old).
Proof.
  revert st. induction names as [|y rest IH]; intros st Hloop Hold.
  - by injection Hloop as <-.
  - apply convert_loop_cons_inv in Hloop as (st1 & Hvar & Hloop).
    apply (IH _ Hloop).
    apply convert_var_inv in Hvar as [[_ ->]|(_ & t & t' & _ & _ & ->)]; [done|].
    cbn. case_decide; [done|]. rewrite lookup_insert. by case_decide; subst.
Qed.

Lemma convert_loop_audits FLAGS reader exclude_patterns names st st' old :
  convert_loop FLAGS reader exclude_patterns names st = Ret st' →
  old ∈ names → excluded exclude_patterns old = false →
  _bert_name_replacement FLAGS old ≠ old →
  conversion_map st' !! old = Some (_bert_name_replacement FLAGS old).
Proof.
  revert st. induction names as [|y rest IH]; intros st Hloop Hin Hex Hne.
  - by apply elem_of_nil in Hin.
  - apply convert_loop_cons_inv in Hloop as (st1 & Hvar & Hloop).
    apply elem_of_cons in Hin as [->|Hin]; [|by eapply IH].
    apply (convert_loop_keeps_audit _ _ _ _ _ _ _ Hloop).
    apply convert_var_inv in Hvar as [[? _]|(_ & t & t' & _ & _ & ->)];
      [congruence|].
    cbn. case_decide; [done|]. by rewrite lookup_insert_eq.
Qed.

Lemma audit_lookup_iff FLAGS reader exclude_patterns st old new :
  convert_names FLAGS reader exclude_patterns = Ret st →
  conversion_map st !! old = Some new
  ↔ old ∈ converted_names reader exclude_patterns
    ∧ new = _bert_name_replacement FLAGS old
    ∧ new ≠ old.
Proof.
  unfold convert_names, converted_names. intros Hrun. split.
  - intros Haudit.
    destruct (convert_loop_audit _ _ _ _ _ _ _ _ Hrun Haudit)
      as [Hinit|(Hin & Hex & -> & Hne)]; [done|].
    split; [|done]. apply list_elem_of_In, filter_In.
    split; [by apply list_elem_of_In | by apply negb_true_iff].
  - intros ([Hin Hkept%negb_true_iff]%list_elem_of_In%filter_In & -> & Hne).
    apply list_elem_of_In in Hin. by eapply convert_loop_audits.
Qed.

(** X12: the rename audit of a conversion is exactly the set of converted
    variables whose name changed: (old, new) is an entry if and only if
    old is a converted source variable, new is its rewritten name, and the
    two differ.  Unchanged names have no entry, and no renamed variable is
    missing. *)
Theorem audit_exact FLAGS reader exclude_patterns st old new :
  convert_names FLAGS reader exclude_patterns = Ret st →
  conversion_map st !! old = Some new
  ↔ old ∈ converted_names reader exclude_patterns
    ∧ new = _bert_name_replacement FLAGS old
    ∧ new ≠ old.
Proof. apply audit_lookup_iff. Qed.

Lemma audit_exact_witness :
  ∃ st, convert_names v1_flags
          [("x/output/dense", small_tensor); ("x/output", small_tensor)] None = Ret st
        ∧ conversion_map st !! "x/output/dense" = Some "x/output"
        ∧ conversion_map st !! "x/output" = None.
Proof.
  eexists. split; [vm_compute; reflexivity|]. split.
  - apply (audit_exact v1_flags
             [("x/output/dense", small_tensor); ("x/output", small_tensor)] None).
    + vm_compute. reflexivity.
    + split; [|split].
      * apply elem_of_cons. left. reflexivity.
      * vm_compute. reflexivity.
      * discriminate.
  - vm_compute. reflexivity.
Defined.

Lemma convert_loop_size FLAGS reader exclude_patterns names st st' :
  convert_loop FLAGS reader exclude_patterns names st = Ret st' →
  (base.size (new_variable_map st')
   ≤ base.size (new_variable_map st)
     + length (List.filter (λ y, negb (excluded exclude_patterns y)) names))%nat.
Proof.
  revert st. induction names as [|y rest IH]; intros st Hloop.
  - injection Hloop as <-. cbn. lia.
  - apply convert_loop_cons_inv in Hloop as (st1 & Hvar & Hloop).
    specialize (IH _ Hloop). cbn [List.filter].
    apply convert_var_inv in Hvar as [[-> ->]|(-> & t & t' & _ & _ & ->)]; [done|].
    cbn [negb length] in *. cbn [new_variable_map record_var] in IH.
    rewrite map_size_insert in IH.
    destruct (new_variable_map st !! _); cbn in IH; lia.
Qed.

(** X13: the loop asks the reader for the tensor of each converted
    variable once, in the order of the checkpoint, and for no other; and
    the number of variables in [new_variable_map], which is the count the
    summary logs, never exceeds the number of converted variables (it is
    smaller when new names collide). *)
Theorem reads_and_count FLAGS reader exclude_patterns st :
  convert_names FLAGS reader exclude_patterns = Ret st →
  tensor_reads st = converted_names reader exclude_patterns
  ∧ (base.size (new_variable_map st)
     ≤ length (converted_names reader exclude_patterns))%nat.
Proof.
  unfold convert_names, converted_names. intros Hrun. split.
  - by rewrite (convert_loop_reads _ _ _ _ _ _ Hrun).
  - pose proof (convert_loop_size _ _ _ _ _ _ Hrun) as Hsize.
    change (new_variable_map initial_state) with (∅ : gmap string tf_Variable) in Hsize.
    by rewrite map_size_empty in Hsize.
Qed.

Lemma reads_and_count_witness :
  ∃ st, convert_names v1_flags
          [("x/output/dense", small_tensor); ("x/output", small_tensor)] None = Ret st
        ∧ tensor_reads st = ["x/output/dense"; "x/output"]
        ∧ base.size (new_variable_map st) = 1%nat.
Proof.
  eexists. split; [vm_compute; reflexivity|]. split.
  - etrans.
    + apply (reads_and_count v1_flags
               [("x/output/dense", small_tensor); ("x/output", small_tensor)] None).
      vm_compute. reflexivity.
    + vm_compute. reflexivity.
  - vm_compute. reflexivity.
Defined.

(** ** Exclusion as a filter on the checkpoint *)

Lemma convert_var_reader FLAGS reader reader' exclude_patterns st var_name :
  get_tensor reader var_name = get_tensor reader' var_name →
  convert_var FLAGS reader exclude_patterns st var_name
  = convert_var FLAGS reader' exclude_patterns st var_name.
Proof. intros Hget. unfold convert_var. by rewrite Hget. Qed.

Lemma convert_loop_reader FLAGS reader reader' exclude_patterns names st :
  (∀ var_name, var_name ∈ names → excluded exclude_patterns var_name = false →
     get_tensor reader var_name = get_tensor reader' var_name) →
  convert_loop FLAGS reader exclude_patterns names st
  = convert_loop FLAGS reader' exclude_patterns names st.
Proof.
  revert st. induction names as [|y rest IH]; intros st Hget; [done|].
  cbn. assert (convert_var FLAGS reader exclude_patterns st y
               = convert_var FLAGS reader' exclude_patterns st y) as ->.
  { destruct (excluded exclude_patterns y) eqn:Hex.
    - by rewrite !convert_var_excluded.
    - apply convert_var_reader, Hget; [apply elem_of_cons; by left|done]. }
  destruct (convert_var _ reader' _ _ _); cbn; [|done].
  apply IH. intros z Hz. apply Hget, elem_of_cons. by right.
Qed.

Lemma convert_loop_filter FLAGS reader exclude_patterns names st :
  convert_loop FLAGS reader exclude_patterns names st
  = convert_loop FLAGS reader None
      (List.filter (λ y, negb (excluded exclude_patterns y)) names) st.
Proof.
  revert st. induction names as [|y rest IH]; intros st; [done|].
  cbn [List.filter convert_loop].
  destruct (excluded exclude_patterns y) eqn:Hex; cbn [negb].
  - rewrite convert_var_excluded by done. apply IH.
  - cbn [convert_loop].
    assert (convert_var FLAGS reader exclude_patterns st y
            = convert_var FLAGS reader None st y) as ->.
    { unfold convert_var. by rewrite Hex. }
    destruct (convert_var _ _ None _ _); cbn; [apply IH|done].
Qed.

Lemma get_tensor_without_excluded reader exclude_patterns var_name :
  excluded exclude_patterns var_name = false →
  get_tensor (without_excluded reader exclude_patterns) var_name
  = get_tensor reader var_name.
Proof.
  intros Hex. unfold without_excluded.
  induction reader as [|[n tensor] rest IH]; [done|].
  cbn [List.filter get_tensor fst]. destruct (decide (n = var_name)) as [->|Hne].
  - rewrite Hex. cbn. by rewrite decide_True.
  - destruct (excluded exclude_patterns n); cbn; [done|].
    by rewrite decide_False.
Qed.

Lemma variable_names_without_excluded reader exclude_patterns :
  variable_names (without_excluded reader exclude_patterns)
  = converted_names reader exclude_patterns.
Proof.
  unfold variable_names, without_excluded, converted_names.
  induction reader as [|[n tensor] rest IH]; [done|].
  cbn. destruct (excluded exclude_patterns n); cbn; [exact IH | f_equal; exact IH].
Qed.

(** X14: excluding variables is the same as deleting them from the
    checkpoint beforehand: a conversion with an exclusion list gives what
    the conversion without one gives on the checkpoint stripped of the
    excluded variables, result and exception alike. *)
Theorem exclusion_is_deletion FLAGS reader exclude_patterns :
  convert_names FLAGS reader exclude_patterns
  = convert_names FLAGS (without_excluded reader exclude_patterns) None.
Proof.
  unfold convert_names.
  rewrite variable_names_without_excluded, convert_loop_filter.
  apply convert_loop_reader. intros var_name Hin _. symmetry.
  apply get_tensor_without_excluded.
  unfold converted_names in Hin.
  apply list_elem_of_In, filter_In in Hin as [_ Hkept]. by apply negb_true_iff.
Qed.

(** ** The pattern list from the flag *)

Lemma split_comma_fields flag :
  ∃ w ws, PyStr.split_from "," flag 0 = w :: ws
          ∧ join "," (w :: ws) = flag
          ∧ ∀ field, field ∈ w :: ws → ¬ substring_of "," field.
Proof.
  induction flag as [|c flag (w & ws & Hsplit & Hjoin & Hfields)].
  - exists "", []. split; [done|]. split; [done|].
    intros field [->|?%elem_of_nil]%elem_of_cons; [|done]. by apply contains_false.
  - rewrite split_comma_cons, Hsplit.
    destruct (Ascii.eqb_spec "," c) as [<-|Hne].
    + exists "", (w :: ws). split; [done|]. split.
      * change (join "," ("" :: w :: ws)) with ("" +:+ "," +:+ join "," (w :: ws)).
        by rewrite Hjoin.
      * intros field [->|Hin]%elem_of_cons; [by apply contains_false|by apply Hfields].
    + exists (String c w), ws. split; [done|]. split.
      * destruct ws as [|w' ws]; [cbn [join] in *; by rewrite Hjoin|].
        change (join "," (String c w :: w' :: ws))
          with (String c w +:+ "," +:+ join "," (w' :: ws)).
        change (join "," (w :: w' :: ws))
          with (w +:+ "," +:+ join "," (w' :: ws)) in Hjoin.
        by rewrite append_cons, Hjoin.
      * intros field [->|Hin]%elem_of_cons.
        -- apply contains_false. cbn [PyStr.contains PyStr.startswith].
           apply Ascii.eqb_neq in Hne. rewrite Hne. cbn.
           apply contains_false, Hfields, elem_of_cons. by left.
        -- apply Hfields, elem_of_cons. by right.
Qed.

(** X15: the fields [split] cuts a flag into at commas are at least one,
    none of them contains a comma, and joined with commas they give the
    flag back.  So the exclusion list [main] builds never holds a
    pattern with a comma in it, and a flag without a comma is passed on
    as the single pattern it is. *)
Theorem split_comma_round_trip flag :
  ∃ fields,
    PyStr.split flag "," = Ret fields
    ∧ fields ≠ []
    ∧ join "," fields = flag
    ∧ (∀ field, field ∈ fields → ¬ substring_of "," field)
    ∧ (¬ substring_of "," flag → fields = [flag]).
Proof.
  destruct (split_comma_fields flag) as (w & ws & Hsplit & Hjoin & Hfields).
  exists (w :: ws). split; [by rewrite <-Hsplit|]. split; [done|].
  split; [done|]. split; [done|].
  intros Hno. destruct ws as [|w' ws]; [by rewrite <-Hjoin|].
  exfalso. apply Hno. rewrite <-Hjoin.
  by exists w, (join "," (w' :: ws)).
Qed.

Lemma split_comma_round_trip_witness :
  ∃ fields,
    PyStr.split "pooler,cls/predictions" "," = Ret fields
    ∧ fields = ["pooler"; "cls/predictions"]
    ∧ join "," fields = "pooler,cls/predictions".
Proof.
  destruct (split_comma_round_trip "pooler,cls/predictions")
    as (fields & Hsplit & _ & Hjoin & _).
  exists fields. split; [exact Hsplit|]. split; [|exact Hjoin].
  vm_compute in Hsplit. congruence.
Defined.

(** ** Independence of the enumeration order *)

Lemma get_tensor_elem reader var_name tensor :
  get_tensor reader var_name = Ret tensor → (var_name, tensor) ∈ reader.
Proof.
  induction reader as [|[n t] rest IH]; [done|]. cbn.
  destruct (decide (n = var_name)) as [->|Hne].
  - intros [= ->]. apply elem_of_cons. by left.
  - intros Hget. apply elem_of_cons. right. by apply IH.
Qed.

Lemma get_tensor_raise reader var_name e :
  get_tensor reader var_name = Raise e → e = NotFoundError.
Proof.
  induction reader as [|[n t] rest IH]; cbn; [congruence|].
  by destruct (decide (n = var_name)).
Qed.

Lemma get_tensor_unique reader var_name tensor :
  NoDup (variable_names reader) → (var_name, tensor) ∈ reader →
  get_tensor reader var_name = Ret tensor.
Proof.
  unfold variable_names. induction reader as [|[n t] rest IH]; cbn.
  - by intros _ ?%elem_of_nil.
  - intros [Hfresh Hrest]%NoDup_cons [[= -> ->]|Hin]%elem_of_cons.
    + by rewrite decide_True.
    + destruct (decide (n = var_name)) as [->|Hne]; [|by apply IH].
      exfalso. apply Hfresh, list_elem_of_fmap. by exists (var_name, tensor).
Qed.

(** With every name listed once, the reader answers the same whatever
    the order of the checkpoint. *)
Lemma get_tensor_permutation reader reader' var_name :
  NoDup (variable_names reader) → reader ≡ₚ reader' →
  get_tensor reader var_name = get_tensor reader' var_name.
Proof.
  intros Hnodup Hperm.
  assert (NoDup (variable_names reader')) as Hnodup'.
  { unfold variable_names in *. by rewrite <-Hperm. }
  destruct (get_tensor reader var_name) as [t|e] eqn:Hget.
  - symmetry. apply get_tensor_unique; [done|].
    rewrite <-Hperm. by apply get_tensor_elem.
  - apply get_tensor_raise in Hget as Hnf. subst e.
    destruct (get_tensor reader' var_name) as [t'|e'] eqn:Hget'.
    + apply get_tensor_elem in Hget'. rewrite <-Hperm in Hget'.
      apply (get_tensor_unique _ _ _ Hnodup) in Hget'. congruence.
    + by apply get_tensor_raise in Hget' as ->.
Qed.

Lemma converted_names_elem reader exclude_patterns var_name :
  var_name ∈ converted_names reader exclude_patterns
  ↔ var_name ∈ variable_names reader ∧ excluded exclude_patterns var_name = false.
Proof.
  unfold converted_names.
  by rewrite list_elem_of_In, filter_In, negb_true_iff, list_elem_of_In.
Qed.

(** Without collisions an entry of the final [new_variable_map] is
    determined by the source variable alone. *)
Lemma variable_lookup_iff FLAGS reader exclude_patterns st key var :
  (∀ y z, y ∈ converted_names reader exclude_patterns →
          z ∈ converted_names reader exclude_patterns →
          _bert_name_replacement FLAGS y = _bert_name_replacement FLAGS z → y = z) →
  convert_names FLAGS reader exclude_patterns = Ret st →
  new_variable_map st !! key = Some var
  ↔ name var ∈ converted_names reader exclude_patterns
    ∧ key = _bert_name_replacement FLAGS (name var)
    ∧ ∃ tensor, get_tensor reader (name var) = Ret tensor
                ∧ stored_tensor FLAGS (name var) tensor = Ret (initial_value var).
Proof.
  intros Hinj Hrun. pose proof Hrun as Hloop. unfold convert_names in Hloop.
  split.
  - intros Hkey.
    destruct (convert_loop_variable _ _ _ _ _ _ _ _ Hloop Hkey)
      as [Hinit|(Hin & Hkept & -> & Hrest)]; [done|].
    split; [by apply converted_names_elem|done].
  - intros (Hconv & -> & tensor & Hget & Hstored).
    pose proof Hconv as [Hin Hkept]%converted_names_elem.
    destruct (convert_loop_stores _ _ _ _ _ _ _ Hloop Hin Hkept) as [var2 Hvar2].
    destruct (convert_loop_variable _ _ _ _ _ _ _ _ Hloop Hvar2)
      as [Hinit|(Hin2 & Hkept2 & Hsame & tensor2 & Hget2 & Hstored2)]; [done|].
    assert (name var = name var2) as Hname.
    { apply Hinj; [done| |done]. by apply converted_names_elem. }
    rewrite <-Hname in Hget2, Hstored2.
    rewrite Hvar2. f_equal. destruct var, var2. cbn in *. congruence.
Qed.

(** X16: the order in which the checkpoint lists its variables does not
    matter as long as no two converted variables are rewritten to the
    same name: for a checkpoint that lists every name once, any
    reordering converts as well and gives the same [new_variable_map] and
    the same rename audit. *)
Theorem order_independent FLAGS reader reader' exclude_patterns st :
  NoDup (variable_names reader) → reader ≡ₚ reader' →
  (∀ y z, y ∈ converted_names reader exclude_patterns →
          z ∈ converted_names reader exclude_patterns →
          _bert_name_replacement FLAGS y = _bert_name_replacement FLAGS z → y = z) →
  convert_names FLAGS reader exclude_patterns = Ret st →
  ∃ st', convert_names FLAGS reader' exclude_patterns = Ret st'
         ∧ new_variable_map st' = new_variable_map st
         ∧ conversion_map st' = conversion_map st.
Proof.
  intros Hnodup Hperm Hinj Hrun.
  assert (∀ y, y ∈ converted_names reader' exclude_patterns
               ↔ y ∈ converted_names reader exclude_patterns) as Hconv.
  { intros y. rewrite !converted_names_elem. unfold variable_names.
    by rewrite Hperm. }
  assert (∀ y, get_tensor reader' y = get_tensor reader y) as Hget.
  { intros y. symmetry. by apply get_tensor_permutation. }
  assert (∃ st', convert_names FLAGS reader' exclude_patterns = Ret st')
    as [st' Hrun'].
  { unfold convert_names. apply convert_loop_succeeds.
    intros y Hin Hkept. rewrite Hget.
    apply (proj1 (convert_loop_succeeds FLAGS reader exclude_patterns
                    (variable_names reader) initial_state) (ex_intro _ st Hrun));
      [|done].
    unfold variable_names in *. by rewrite Hperm. }
  exists st'. split; [done|]. split.
  - apply map_eq. intros key. apply option_eq. intros var.
    rewrite (variable_lookup_iff _ _ _ _ _ _ Hinj Hrun).
    rewrite (variable_lookup_iff FLAGS reader' exclude_patterns st'); [|..|done].
    + rewrite Hconv. by setoid_rewrite Hget.
    + intros y z Hy%Hconv Hz%Hconv. by apply Hinj.
  - apply map_eq. intros old. apply option_eq. intros new.
    rewrite (audit_lookup_iff _ _ _ _ _ _ Hrun),
      (audit_lookup_iff _ _ _ _ _ _ Hrun').
    by rewrite Hconv.
Qed.

Lemma order_independent_witness :
  ∃ st', convert_names v1_flags
           [("global_step", {| shape := []; buffer := [7] |});
            ("bert/pooler/dense/kernel", small_tensor)] None = Ret st'
         ∧ new_variable_map st'
           = {[ "bert_model/pooler_transform/kernel" :=
                  {| initial_value := small_tensor;
                     name := "bert/pooler/dense/kernel" |};
                "global_step" :=
                  {| initial_value := {| shape := []; buffer := [7] |};
                     name := "global_step" |} ]}
         ∧ conversion_map st'
           = {[ "bert/pooler/dense/kernel" := "bert_model/pooler_transform/kernel" ]}.
Proof.
  destruct (order_independent v1_flags
    [("bert/pooler/dense/kernel", small_tensor);
     ("global_step", {| shape := []; buffer := [7] |})]
    [("global_step", {| shape := []; buffer := [7] |});
     ("bert/pooler/dense/kernel", small_tensor)]
    None
    {| new_variable_map :=
         {[ "bert_model/pooler_transform/kernel" :=
              {| initial_value := small_tensor;
                 name := "bert/pooler/dense/kernel" |};
            "global_step" :=
              {| initial_value := {| shape := []; buffer := [7] |};
                 name := "global_step" |} ]};
       conversion_map :=
         {[ "bert/pooler/dense/kernel" := "bert_model/pooler_transform/kernel" ]};
       tensor_reads := ["bert/pooler/dense/kernel"; "global_step"] |})
    as (st' & Hrun & Hmap & Haudit).
  - apply NoDup_cons. split; [|apply NoDup_singleton].
    intros [Heq|Hin%elem_of_nil]%elem_of_cons; [discriminate Heq|done].
  - apply Permutation_swap.
  - intros y z Hy Hz.
    apply elem_of_cons in Hy as [->|Hy]; apply elem_of_cons in Hz as [->|Hz];
      try (apply elem_of_cons in Hy as [->|Hy%elem_of_nil]; [|done]);
      try (apply elem_of_cons in Hz as [->|Hz%elem_of_nil]; [|done]);
      vm_compute; congruence.
  - vm_compute. reflexivity.
  - exists st'. split; [exact Hrun|]. split; [exact Hmap | exact Haudit].
Defined.

(** With collisions the order does matter: the later variable wins. *)
Example collision_depends_on_order :
  ∃ st st',
    convert_names v1_flags
      [("x/output/dense", small_tensor); ("x/output", small_tensor)] None = Ret st
    ∧ convert_names v1_flags
        [("x/output", small_tensor); ("x/output/dense", small_tensor)] None = Ret st'
    ∧ name <$> new_variable_map st !! "x/output" = Some "x/output"
    ∧ name <$> new_variable_map st' !! "x/output" = Some "x/output/dense".
Proof.
  eexists _, _. split; [vm_compute; reflexivity|].
  split; [vm_compute; reflexivity|]. split; vm_compute; reflexivity.
Qed.

(** ** Checkpoints that convert *)

Lemma np_reshape_fits tensor newshape :
  Forall (λ d, 0 ≤ d) newshape → product newshape = size tensor →
  np_reshape tensor newshape
  = Ret {| shape := Z.to_N <$> newshape; buffer := buffer tensor |}.
Proof.
  intros Hpos Hsize. unfold np_reshape.
  assert (forallb (Z.leb 0) newshape = true) as ->.
  { clear Hsize. induction Hpos as [|d ds Hd _ IH]; [done|]. cbn.
    rewrite IH, andb_true_r. by apply Z.leb_le. }
  by rewrite Hsize, Z.eqb_refl.
Qed.

(** The shape the rule gives for a shape of the rank it accounts for and
    a split dimension the head count divides. *)
Lemma get_new_shape_fits name shape h :
  0 < h →
  (∀ r, expected_rank name = Some r → length shape = r) →
  (∀ d, split_dimension name shape = Some d → (h | d)) →
  ∃ r, _get_new_shape name shape h = Ret r
       ∧ ∀ new_shape, r = Some new_shape → product new_shape = product shape.
Proof.
  intros Hh Hrank Hdiv. rewrite get_new_shape_by_rule.
  unfold expected_rank, split_dimension in *.
  assert (∀ k, k * h / h = k) as Hq by (intros k; apply Z.div_mul; lia).
  destruct (rule_of name).
  - specialize (Hrank _ eq_refl).
    destruct shape as [|d0 [|d1 [|]]]; try discriminate Hrank.
    destruct (Hdiv d0 eq_refl) as [k ->]. cbn. rewrite floordiv_pos by done.
    eexists; split; [done|]. intros ? [= <-]. cbn. rewrite Hq. lia.
  - eexists; split; [done|]. by intros ? [= <-].
  - specialize (Hrank _ eq_refl).
    destruct shape as [|d0 [|d1 [|]]]; try discriminate Hrank.
    destruct (Hdiv d1 eq_refl) as [k ->]. cbn. rewrite floordiv_pos by done.
    eexists; split; [done|]. intros ? [= <-]. cbn. rewrite Hq. lia.
  - specialize (Hrank _ eq_refl).
    destruct shape as [|d0 [|]]; try discriminate Hrank.
    destruct (Hdiv d0 eq_refl) as [k ->]. cbn. rewrite floordiv_pos by done.
    eexists; split; [done|]. intros ? [= <-]. cbn. rewrite Hq. lia.
  - eexists; split; [done|]. done.
Qed.

Lemma stored_tensor_fits FLAGS var_name tensor :
  (∀ r, expected_rank var_name = Some r → length (shape_tuple tensor) = r) →
  (∀ d, split_dimension var_name (shape_tuple tensor) = Some d →
        (num_heads FLAGS | d)) →
  ∃ tensor',
    stored_tensor FLAGS var_name tensor = Ret tensor'
    ∧ buffer tensor' = buffer tensor
    ∧ (0 < num_heads FLAGS →
       ∀ new_shape,
         _get_new_shape var_name (shape_tuple tensor) (num_heads FLAGS)
         = Ret (Some new_shape) →
         shape_tuple tensor' = new_shape).
Proof.
  intros Hrank Hdiv. unfold stored_tensor.
  destruct (Z.ltb_spec 0 (num_heads FLAGS)) as [Hh|Hh];
    [|exists tensor; split; [done|]; split; [done|lia]].
  destruct (get_new_shape_fits _ _ _ Hh Hrank Hdiv) as (r & Hrule & Hprod).
  rewrite Hrule. cbn. destruct r as [[|d ds]|]; cbn.
  - exists tensor. split; [done|]. split; [done|].
    intros _ new_shape [= <-].
    rewrite get_new_shape_by_rule in Hrule. unfold tuple_get in Hrule.
    destruct (rule_of var_name), (shape_tuple tensor) as [|d0 [|d1 ?]];
      cbn in Hrule; rewrite ?floordiv_pos in Hrule by done; cbn in Hrule;
      congruence.
  - rewrite np_reshape_fits.
    + eexists. split; [done|]. split; [done|].
      intros _ new_shape [= <-]. unfold shape_tuple. cbn [shape].
      apply of_N_to_N.
      pose proof (get_new_shape_nonneg _ _ _ _ Hh Hrule) as Hpos.
      clear -Hpos. induction Hpos as [|x xs Hx _ IH]; [done|]. cbn.
      rewrite IH, andb_true_r. by apply Z.leb_le.
    + by eapply get_new_shape_nonneg.
    + by apply Hprod.
  - exists tensor. split; [done|]. split; [done|]. by intros _ new_shape [=].
Qed.

(** X17: with reshaping on, a tensor of the rank the rule for its name
    accounts for, whose split dimension the head count divides, is stored
    without error, with its buffer as read and with exactly the shape the
    shape rule returns. *)
Theorem divisible_tensor_is_reshaped FLAGS var_name tensor :
  0 < num_heads FLAGS →
  (∀ r, expected_rank var_name = Some r → length (shape_tuple tensor) = r) →
  (∀ d, split_dimension var_name (shape_tuple tensor) = Some d →
        (num_heads FLAGS | d)) →
  ∃ tensor',
    stored_tensor FLAGS var_name tensor = Ret tensor'
    ∧ buffer tensor' = buffer tensor
    ∧ ∀ new_shape,
        _get_new_shape var_name (shape_tuple tensor) (num_heads FLAGS)
        = Ret (Some new_shape) →
        shape_tuple tensor' = new_shape.
Proof.
  intros Hh Hrank Hdiv.
  destruct (stored_tensor_fits FLAGS var_name tensor Hrank Hdiv)
    as (tensor' & Hstored & Hbuffer & Hshape).
  exists tensor'. split; [done|]. split; [done|]. by apply Hshape.
Qed.

Lemma divisible_tensor_is_reshaped_witness :
  ∃ tensor',
    stored_tensor two_heads_flags "bert/encoder/layer_0/attention/self/value/kernel"
      small_tensor = Ret tensor'
    ∧ buffer tensor' = [11; 12; 21; 22]
    ∧ shape_tuple tensor' = [2; 2; 1].
Proof.
  destruct (divisible_tensor_is_reshaped two_heads_flags
              "bert/encoder/layer_0/attention/self/value/kernel" small_tensor)
    as (tensor' & Hstored & Hbuffer & Hshape).
  - reflexivity.
  - intros r. vm_compute. intros [= <-]. reflexivity.
  - intros d. vm_compute. intros [= <-]. exists 1. reflexivity.
  - exists tensor'. split; [exact Hstored|]. split; [exact Hbuffer|].
    apply Hshape. vm_compute. reflexivity.
Defined.


